(** * bank1.cpp: accounts, customers and the bank ledger

    A shallow embedding of [src/bank1.cpp].  The C++ classes become records,
    the [shared_ptr<Account>] objects live in an explicit heap that the
    bank's and the customers' maps both point into, exceptions are an
    [outcome], and every [cout] statement of the modelled methods is one
    constructor of [Line].

    The C++ type [double] is an interface ([Double]); the program runs on
    its instance [binary64], IEEE binary64 as Rocq's primitive floats. *)

From Stdlib Require Import ZArith QArith Floats.
From stdpp Require Import base option list sorting gmap strings pretty.

Set Default Proof Using "Type".
Set Warnings "-inexact-float".
Local Open Scope string_scope.
Local Open Scope Z_scope.
Local Open Scope list_scope.

(** ** The arithmetic of [double] *)

(** The operations the program applies to a [double]: the literals [0] and
    [1], [+], [-], [*], [<] and [<=] ([a > b] is [b < a]). *)
Class Double (D : Type) := {
  d_zero : D;
  d_one : D;
  d_add : D -> D -> D;
  d_sub : D -> D -> D;
  d_mul : D -> D -> D;
  d_lt : D -> D -> bool;
  d_le : D -> D -> bool
}.

(** IEEE 754 binary64, round to nearest even: the [double] of the program. *)
#[export] Instance binary64 : Double float := {|
  d_zero := 0%float;
  d_one := 1%float;
  d_add := PrimFloat.add;
  d_sub := PrimFloat.sub;
  d_mul := PrimFloat.mul;
  d_lt := PrimFloat.ltb;
  d_le := PrimFloat.leb
|}.

(** An instance is exact when it can be read in the rationals, operation by
    operation. *)
Class Exact (D : Type) `{Double D} := {
  toQ : D -> Q;
  toQ_zero : (toQ d_zero == 0)%Q;
  toQ_one : (toQ d_one == 1)%Q;
  toQ_add x y : (toQ (d_add x y) == toQ x + toQ y)%Q;
  toQ_sub x y : (toQ (d_sub x y) == toQ x - toQ y)%Q;
  toQ_mul x y : (toQ (d_mul x y) == toQ x * toQ y)%Q;
  toQ_lt x y : d_lt x y = true <-> (toQ x < toQ y)%Q;
  toQ_le x y : d_le x y = true <-> (toQ x <= toQ y)%Q
}.

(** ** Exceptions *)

Inductive exception := invalid_argument (what : string).

Inductive outcome (A : Type) :=
| Return (a : A)
| Throw (e : exception).
Arguments Return {A} a.
Arguments Throw {A} e.

#[export] Instance outcome_bind : MBind outcome := fun A B k m =>
  match m with
  | Return a => k a
  | Throw e => Throw e
  end.

Definition throw_if {A : Type} (c : bool) (what : string) (k : outcome A) : outcome A :=
  if c then Throw (invalid_argument what) else k.

(** [std::string::empty]. *)
Definition is_empty (s : string) : bool := bool_decide (s = "").

(** An object behind a [shared_ptr]: an index into the heap. *)
Abbreviation loc := nat.

Section Ledger.
Context {D : Type} `{Double D}.

(** ** Transaction (bank1.cpp:37) *)

(** The [date] member, the text of the wall clock at the time of the call,
    is not represented: no method reads it back. *)
Record Transaction := {
  type : string;
  amount : D;
  newBalance : D
}.

(** ** Account, SavingsAccount, CheckingAccount (bank1.cpp:59, 138, 173) *)

(** The dynamic class of an account object, with the member that the derived
    class adds. *)
Inductive Dynamic :=
| IsAccount
| IsSavingsAccount (_interestRate : D)
| IsCheckingAccount (_overdraftLimit : D).

Record Account := {
  _accountNumber : string;
  _ownerName : string;
  _balance : D;
  _transactions : list Transaction;
  dynamic : Dynamic
}.

(** The lines the modelled methods write to [cout], each with the values
    its text is formatted from. *)
Inductive Line :=
| deposit_not_positive
| deposited (amount : D) (accountNumber : string) (balance : D)
| withdrawal_not_positive
| insufficient_funds (balance amount : D)
| withdrew (amount : D) (accountNumber : string) (balance : D)
| interest_applied (interestAmount : D) (accountNumber : string) (balance : D)
| withdrawal_denied (overdraftLimit balance amount : D)
| withdrew_checking (amount : D) (accountNumber : string) (balance : D)
| account_added (accountNumber name : string)
| customer_added (name customerId : string)
| customer_not_found (customerId : string)
| invalid_account_type
| account_created (accountType name customerId accountNumber : string)
| source_not_found (fromAccountNum : string)
| destination_not_found (toAccountNum : string)
| same_account
| transfer_not_positive
| transferred (amount : D) (fromAccountNum toAccountNum : string)
| transfer_failed.

Definition getAccountNumber (a : Account) : string := _accountNumber a.
Definition getOwnerName (a : Account) : string := _ownerName a.
Definition getBalance (a : Account) : D := _balance a.
Definition getTransactionHistory (a : Account) : list Transaction := _transactions a.

(** [Account::Account] (bank1.cpp:68). *)
Definition new_Account (accountNumber ownerName : string) (initialBalance : D)
  : outcome Account :=
  throw_if (is_empty accountNumber) "Account number cannot be empty." (
  throw_if (is_empty ownerName) "Owner name cannot be empty." (
  throw_if (d_lt initialBalance d_zero) "Initial balance cannot be negative." (
  Return {| _accountNumber := accountNumber; _ownerName := ownerName;
            _balance := initialBalance; _transactions := [];
            dynamic := IsAccount |}))).

Definition derived (k : Dynamic) (a : Account) : Account :=
  {| _accountNumber := _accountNumber a; _ownerName := _ownerName a;
     _balance := _balance a; _transactions := _transactions a; dynamic := k |}.

(** [SavingsAccount::SavingsAccount] (bank1.cpp:144): the base constructor
    runs first. *)
Definition new_SavingsAccount (accountNumber ownerName : string)
    (initialBalance interestRate : D) : outcome Account :=
  a ← new_Account accountNumber ownerName initialBalance;
  throw_if (d_lt interestRate d_zero || d_lt d_one interestRate)
    "Interest rate must be between 0 and 1 (e.g., 0.01 for 1%)."
    (Return (derived (IsSavingsAccount interestRate) a)).

(** [CheckingAccount::CheckingAccount] (bank1.cpp:179). *)
Definition new_CheckingAccount (accountNumber ownerName : string)
    (initialBalance overdraftLimit : D) : outcome Account :=
  a ← new_Account accountNumber ownerName initialBalance;
  throw_if (d_lt overdraftLimit d_zero) "Overdraft limit cannot be negative."
    (Return (derived (IsCheckingAccount overdraftLimit) a)).

(** [_balance = b; _transactions.emplace_back(ty, amt, _balance)]. *)
Definition record (ty : string) (amt b : D) (a : Account) : Account :=
  {| _accountNumber := _accountNumber a; _ownerName := _ownerName a;
     _balance := b;
     _transactions := _transactions a ++
       [{| type := ty; amount := amt; newBalance := b |}];
     dynamic := dynamic a |}.

(** [Account::deposit] (bank1.cpp:91). *)
Definition deposit (amount : D) (a : Account) : bool * Account * list Line :=
  if d_le amount d_zero then (false, a, [deposit_not_positive])
  else
    let b := d_add (_balance a) amount in
    (true, record "Deposit" amount b a, [deposited amount (_accountNumber a) b]).

(** [Account::withdraw] (bank1.cpp:106). *)
Definition Account_withdraw (amount : D) (a : Account) : bool * Account * list Line :=
  if d_le amount d_zero then (false, a, [withdrawal_not_positive])
  else if d_lt (_balance a) amount then
    (false, a, [insufficient_funds (_balance a) amount])
  else
    let b := d_sub (_balance a) amount in
    (true, record "Withdrawal" amount b a, [withdrew amount (_accountNumber a) b]).

(** [CheckingAccount::withdraw] (bank1.cpp:188). *)
Definition CheckingAccount_withdraw (_overdraftLimit amount : D) (a : Account)
  : bool * Account * list Line :=
  if d_le amount d_zero then (false, a, [withdrawal_not_positive])
  else if d_lt (d_add (_balance a) _overdraftLimit) amount then
    (false, a, [withdrawal_denied _overdraftLimit (_balance a) amount])
  else
    let b := d_sub (_balance a) amount in
    (true, record "Withdrawal" amount b a,
     [withdrew_checking amount (_accountNumber a) b]).

(** The virtual call [account->withdraw(amount)]. *)
Definition withdraw (amount : D) (a : Account) : bool * Account * list Line :=
  match dynamic a with
  | IsCheckingAccount l => CheckingAccount_withdraw l amount a
  | _ => Account_withdraw amount a
  end.

(** [SavingsAccount::applyInterest] (bank1.cpp:153), a member of
    [SavingsAccount] only. *)
Definition applyInterest (a : Account) : option (Account * list Line) :=
  match dynamic a with
  | IsSavingsAccount _interestRate =>
      let interestAmount := d_mul (_balance a) _interestRate in
      let b := d_add (_balance a) interestAmount in
      Some (record "Interest Applied" interestAmount b a,
            [interest_applied interestAmount (_accountNumber a) b])
  | _ => None
  end.

(** ** Customer (bank1.cpp:217) *)

(** [c_name] is the member [_name] and [c_accounts] the member [_accounts]
    of [Customer]; the map holds the [shared_ptr]s as heap locations. *)
Record Customer := {
  _customerId : string;
  c_name : string;
  _address : string;
  c_accounts : gmap string loc
}.

(** [Customer::Customer] (bank1.cpp:227). *)
Definition new_Customer (customerId name address : string) : outcome Customer :=
  throw_if (is_empty customerId) "Customer ID cannot be empty." (
  throw_if (is_empty name) "Customer name cannot be empty." (
  throw_if (is_empty address) "Address cannot be empty." (
  Return {| _customerId := customerId; c_name := name; _address := address;
            c_accounts := ∅ |}))).

Definition getName (c : Customer) : string := c_name c.

(** [Customer::addAccount] (bank1.cpp:246).  [account] is the pointer
    ([None] is [nullptr]) and [h] the heap it points into.  A [shared_ptr]
    that is not null points to a live object, so the last branch is never
    taken. *)
Definition addAccount (account : option loc) (h : list Account) (c : Customer)
  : outcome Customer * list Line :=
  match account with
  | None => (Throw (invalid_argument "Account pointer cannot be null."), [])
  | Some l =>
      match h !! l with
      | Some a =>
          (Return {| _customerId := _customerId c; c_name := c_name c;
                     _address := _address c;
                     c_accounts := <[getAccountNumber a := l]> (c_accounts c) |},
           [account_added (getAccountNumber a) (c_name c)])
      | None => (Return c, [])
      end
  end.

(** [Customer::getAccount] (bank1.cpp:255). *)
Definition Customer_getAccount (accountNumber : string) (c : Customer) : option loc :=
  c_accounts c !! accountNumber.

(** ** Bank (bank1.cpp:283) *)

(** [b_name] is the member [_name] and [b_accounts] the member [_accounts]
    of [Bank].  The customers are kept by value under their key: inside the
    bank a [Customer] object has this one owner. *)
Record Bank := {
  b_name : string;
  _customers : gmap string Customer;
  b_accounts : gmap string loc;
  _nextCustomerId : Z;
  _nextAccountNumber : Z
}.

(** The program state: the account objects and the bank that points to
    them. *)
Record State := {
  heap : list Account;
  bank : Bank
}.

(** [Bank::Bank] (bank1.cpp:297). *)
Definition new_Bank (name : string) : State :=
  {| heap := [];
     bank := {| b_name := name; _customers := ∅; b_accounts := ∅;
                _nextCustomerId := 1000; _nextAccountNumber := 100000 |} |}.

Definition set_customers (cs : gmap string Customer) (s : State) : State :=
  {| heap := heap s;
     bank := {| b_name := b_name (bank s); _customers := cs;
                b_accounts := b_accounts (bank s);
                _nextCustomerId := _nextCustomerId (bank s);
                _nextAccountNumber := _nextAccountNumber (bank s) |} |}.

Definition set_accounts (acs : gmap string loc) (s : State) : State :=
  {| heap := heap s;
     bank := {| b_name := b_name (bank s); _customers := _customers (bank s);
                b_accounts := acs;
                _nextCustomerId := _nextCustomerId (bank s);
                _nextAccountNumber := _nextAccountNumber (bank s) |} |}.

Definition set_nextCustomerId (n : Z) (s : State) : State :=
  {| heap := heap s;
     bank := {| b_name := b_name (bank s); _customers := _customers (bank s);
                b_accounts := b_accounts (bank s);
                _nextCustomerId := n;
                _nextAccountNumber := _nextAccountNumber (bank s) |} |}.

Definition set_nextAccountNumber (n : Z) (s : State) : State :=
  {| heap := heap s;
     bank := {| b_name := b_name (bank s); _customers := _customers (bank s);
                b_accounts := b_accounts (bank s);
                _nextCustomerId := _nextCustomerId (bank s);
                _nextAccountNumber := n |} |}.

Definition set_heap (h : list Account) (s : State) : State :=
  {| heap := h; bank := bank s |}.

(** [std::to_string(long long)]; the counters stay far from the range where
    [long long] overflows. *)
Definition to_string (n : Z) : string := pretty n.

(** [Bank::addCustomer] (bank1.cpp:303); the result is the key of the new
    customer. *)
Definition addCustomer (name address : string) (s : State)
  : outcome string * State * list Line :=
  let customerId := "C" +:+ to_string (_nextCustomerId (bank s)) in
  let s1 := set_nextCustomerId (_nextCustomerId (bank s) + 1) s in
  match new_Customer customerId name address with
  | Throw e => (Throw e, s1, [])
  | Return customer =>
      (Return customerId,
       set_customers (<[customerId := customer]> (_customers (bank s1))) s1,
       [customer_added name customerId])
  end.

(** [Bank::getCustomer] (bank1.cpp:312). *)
Definition getCustomer (customerId : string) (s : State) : option Customer :=
  _customers (bank s) !! customerId.

(** [Bank::getAccount] (bank1.cpp:350). *)
Definition getAccount (accountNumber : string) (s : State) : option loc :=
  b_accounts (bank s) !! accountNumber.

(** [make_shared]: the new object takes the next free heap location. *)
Definition make_shared (a : Account) (s : State) : loc * State :=
  (length (heap s), set_heap (heap s ++ [a]) s).

(** The choice of the class in [createAccount] (bank1.cpp:333-340): the
    constructor call for ["savings"] and for ["checking"], none for another
    type. *)
Definition construct (accountType accountNumber ownerName : string)
    (initialBalance interestRate overdraftLimit : D) : option (outcome Account) :=
  if bool_decide (accountType = "savings") then
    Some (new_SavingsAccount accountNumber ownerName initialBalance interestRate)
  else if bool_decide (accountType = "checking") then
    Some (new_CheckingAccount accountNumber ownerName initialBalance overdraftLimit)
  else None.

(** [Bank::createAccount] (bank1.cpp:321); the result is the pointer to the
    new account, [None] for [nullptr]. *)
Definition createAccount (customerId accountType : string)
    (initialBalance interestRate overdraftLimit : D) (s : State)
  : outcome (option loc) * State * list Line :=
  match getCustomer customerId s with
  | None => (Return None, s, [customer_not_found customerId])
  | Some customer =>
      let accountNumber := "ACC" +:+ to_string (_nextAccountNumber (bank s)) in
      let s1 := set_nextAccountNumber (_nextAccountNumber (bank s) + 1) s in
      match construct accountType accountNumber (getName customer)
              initialBalance interestRate overdraftLimit with
      | None => (Return None, s1, [invalid_account_type])
      | Some (Throw e) => (Throw e, s1, [])
      | Some (Return a) =>
          let '(account, s2) := make_shared a s1 in
          match addAccount (Some account) (heap s2) customer with
          | (Throw e, out) => (Throw e, s2, out)
          | (Return customer', out) =>
              let s3 := set_customers
                          (<[customerId := customer']> (_customers (bank s2))) s2 in
              let s4 := set_accounts
                          (<[accountNumber := account]> (b_accounts (bank s3))) s3 in
              (Return (Some account), s4,
               out ++ [account_created accountType (getName customer)
                         customerId accountNumber])
          end
      end
  end.

(** The effect of a method call through a pointer: the object at [l] is
    replaced by its new value. *)
Definition store (l : loc) (a : Account) (s : State) : State :=
  set_heap (<[l := a]> (heap s)) s.

(** [Bank::transferFunds] (bank1.cpp:359).  The two [None] branches on the
    heap are never taken: the pointers come from the bank's map. *)
Definition transferFunds (fromAccountNum toAccountNum : string) (amount : D)
    (s : State) : bool * State * list Line :=
  match getAccount fromAccountNum s, getAccount toAccountNum s with
  | None, _ => (false, s, [source_not_found fromAccountNum])
  | Some _, None => (false, s, [destination_not_found toAccountNum])
  | Some fromAccount, Some toAccount =>
      if bool_decide (fromAccountNum = toAccountNum) then
        (false, s, [same_account])
      else if d_le amount d_zero then (false, s, [transfer_not_positive])
      else
        match heap s !! fromAccount with
        | None => (false, s, [])
        | Some a =>
            let '(ok, a', out1) := withdraw amount a in
            let s1 := store fromAccount a' s in
            if ok then
              match heap s1 !! toAccount with
              | None => (true, s1, out1)
              | Some b =>
                  let '(_, b', out2) := deposit amount b in
                  (true, store toAccount b' s1,
                   out1 ++ out2 ++
                     [transferred amount fromAccountNum toAccountNum])
              end
            else (false, s1, out1 ++ [transfer_failed])
        end
  end.

(** ** Clients *)

(** The calls a client makes on one account object. *)
Inductive Op :=
| op_deposit (amount : D)
| op_withdraw (amount : D)
| op_applyInterest.

(** [applyInterest] is called on savings accounts only (the client casts
    the pointer, bank1.cpp:459); on another object there is no such call. *)
Definition apply_op (o : Op) (a : Account) : Account :=
  match o with
  | op_deposit amount => (deposit amount a).1.2
  | op_withdraw amount => (withdraw amount a).1.2
  | op_applyInterest =>
      match applyInterest a with
      | Some (a', _) => a'
      | None => a
      end
  end.

Definition run_ops (ops : list Op) (a : Account) : Account :=
  foldl (fun a o => apply_op o a) a ops.

(** The calls a client makes on the bank and, through [getAccount], on its
    accounts. *)
Inductive Command :=
| call_addCustomer (name address : string)
| call_createAccount (customerId accountType : string)
    (initialBalance interestRate overdraftLimit : D)
| call_deposit (accountNumber : string) (amount : D)
| call_withdraw (accountNumber : string) (amount : D)
| call_applyInterest (accountNumber : string)
| call_transferFunds (fromAccountNum toAccountNum : string) (amount : D).

(** [if (auto p = bank.getAccount(n)) p->method(...)]. *)
Definition on_account (accountNumber : string) (o : Op) (s : State) : State :=
  match getAccount accountNumber s with
  | None => s
  | Some l =>
      match heap s !! l with
      | None => s
      | Some a => store l (apply_op o a) s
      end
  end.

Definition step (c : Command) (s : State) : State :=
  match c with
  | call_addCustomer name address => (addCustomer name address s).1.2
  | call_createAccount customerId accountType initialBalance interestRate
      overdraftLimit =>
      (createAccount customerId accountType initialBalance interestRate
         overdraftLimit s).1.2
  | call_deposit n amount => on_account n (op_deposit amount) s
  | call_withdraw n amount => on_account n (op_withdraw amount) s
  | call_applyInterest n => on_account n op_applyInterest s
  | call_transferFunds f t amount => (transferFunds f t amount s).1.2
  end.

Definition run (cs : list Command) (s : State) : State :=
  foldl (fun s c => step c s) s cs.

(** A state reached from another by method calls on account objects. *)
Inductive calls : State -> State -> Prop :=
| calls_done s : calls s s
| calls_more s l a (o : Op) s' :
    heap s !! l = Some a ->
    calls (store l (apply_op o a) s) s' ->
    calls s s'.

(** ** The notions of the specification *)

(** Replaying a history: [Deposit] and [Interest Applied] add the amount,
    [Withdrawal] subtracts it. *)
Definition applyDelta (b : D) (t : Transaction) : D :=
  if bool_decide (type t = "Deposit") || bool_decide (type t = "Interest Applied")
  then d_add b (amount t)
  else if bool_decide (type t = "Withdrawal") then d_sub b (amount t)
  else b.

Definition replay (history : list Transaction) (start : D) : D :=
  foldl applyDelta start history.

(** An account as one of the three constructors makes it. *)
Definition created (a : Account) (initialBalance : D) : Prop :=
  exists accountNumber ownerName,
    new_Account accountNumber ownerName initialBalance = Return a \/
    (exists interestRate,
       new_SavingsAccount accountNumber ownerName initialBalance interestRate
       = Return a) \/
    (exists overdraftLimit,
       new_CheckingAccount accountNumber ownerName initialBalance overdraftLimit
       = Return a).

(** The withdrawal policy as the two [withdraw] methods test it. *)
Definition permits (amount : D) (a : Account) : bool :=
  match dynamic a with
  | IsCheckingAccount l => negb (d_lt (d_add (_balance a) l) amount)
  | _ => negb (d_lt (_balance a) amount)
  end.

(** The funds a withdrawal may use: the balance, for a checking account the
    balance plus the overdraft limit. *)
Definition available (a : Account) : D :=
  match dynamic a with
  | IsCheckingAccount l => d_add (_balance a) l
  | _ => _balance a
  end.

(** The two maps and the heap agree; it holds in every state the clients
    can reach from [new_Bank]. *)
Record wf (s : State) : Prop := {
  wf_accounts : forall k l, b_accounts (bank s) !! k = Some l ->
    exists a, heap s !! l = Some a /\ _accountNumber a = k;
  wf_customers : forall cid c k l, _customers (bank s) !! cid = Some c ->
    c_accounts c !! k = Some l -> b_accounts (bank s) !! k = Some l;
  wf_numbers : forall l a, heap s !! l = Some a ->
    exists n, _accountNumber a = "ACC" +:+ to_string n /\
              n < _nextAccountNumber (bank s)
}.

(** The account number generated from [n] belongs to no account. *)
Definition unassigned (n : Z) (s : State) : Prop :=
  getAccount ("ACC" +:+ to_string n) s = None /\
  (forall cid c, getCustomer cid s = Some c ->
     Customer_getAccount ("ACC" +:+ to_string n) c = None) /\
  (forall l a, heap s !! l = Some a ->
     getAccountNumber a <> "ACC" +:+ to_string n).

(** The number generated from [n] is behind the counter and on no object. *)
Definition skipped (n : Z) (s : State) : Prop :=
  n < _nextAccountNumber (bank s) /\
  forall l a, heap s !! l = Some a -> _accountNumber a <> "ACC" +:+ to_string n.

End Ledger.

Arguments Transaction D : clear implicits.
Arguments Dynamic D : clear implicits.
Arguments Account D : clear implicits.
Arguments Line D : clear implicits.
Arguments State D : clear implicits.
Arguments Op D : clear implicits.
Arguments Command D : clear implicits.

(** ** The claims of the specification, as it states them *)

Section Stated.
Context {D : Type} `{Double D}.

(** Specification, data model and testable properties: the balance is the
    replay of the history from 0. *)
Definition balance_replays_from_zero : Prop :=
  forall (a : Account D) (initialBalance : D) (ops : list (Op D)),
    d_le d_zero initialBalance = true ->
    created a initialBalance ->
    _balance (run_ops ops a) = replay (_transactions (run_ops ops a)) d_zero.

(** Component design and external interfaces: a transfer returns success
    with both resulting balances, that is, the balances of the two accounts
    after the call can be read off the value it returns. *)
Definition transfer_returns_balances : Prop :=
  exists fromBalance toBalance : bool -> D,
    forall (name : string) (cs : list (Command D)) f t amount lf lt a' b',
      let s := run cs (new_Bank name) in
      let r := transferFunds f t amount s in
      r.1.1 = true ->
      getAccount f s = Some lf -> getAccount t s = Some lt ->
      heap r.1.2 !! lf = Some a' -> heap r.1.2 !! lt = Some b' ->
      fromBalance r.1.1 = getBalance a' /\ toBalance r.1.1 = getBalance b'.

End Stated.

(** ** Runs of the program without rounding *)

(** The value of a [double] that is a number (a zero or a finite one), as a
    multiple of [2^-1074], the smallest positive [double]; neither NaN nor
    an infinity has one. *)
Definition SFvalue (x : spec_float) : option Z :=
  match x with
  | S754_zero _ => Some 0
  | S754_finite s m e => Some (cond_Zopp s (Zpos m * 2 ^ (e + 1074)))
  | _ => None
  end.

Definition value (x : float) : option Z := SFvalue (Prim2SF x).

Definition is_number (x : float) : bool :=
  match value x with Some _ => true | None => false end.

(** [x + y] and [x - y] without rounding: the operands are numbers and the
    result is their sum or difference. *)
Definition exact_add (x y : float) : bool :=
  match value x, value y with
  | Some vx, Some vy => bool_decide (value (x + y)%float = Some (vx + vy))
  | _, _ => false
  end.

Definition exact_sub (x y : float) : bool :=
  match value x, value y with
  | Some vx, Some vy => bool_decide (value (x - y)%float = Some (vx - vy))
  | _, _ => false
  end.

(** The sums and differences that a method computes on an object come
    without rounding: [deposit] adds the amount; [withdraw] subtracts it
    and, on a checking account, adds the overdraft limit to the balance;
    [applyInterest] adds the interest (the product itself may be rounded). *)
Definition exact_call (o : Op float) (a : Account float) : bool :=
  match o with
  | op_deposit amount => exact_add (_balance a) amount
  | op_withdraw amount =>
      exact_sub (_balance a) amount &&
      match dynamic a with
      | IsCheckingAccount l => exact_add (_balance a) l
      | _ => true
      end
  | op_applyInterest =>
      match dynamic a with
      | IsSavingsAccount r => exact_add (_balance a) (_balance a * r)%float
      | _ => true
      end
  end.

Definition exact_on (accountNumber : string) (o : Op float) (s : State float)
  : bool :=
  match getAccount accountNumber s with
  | None => true
  | Some l =>
      match heap s !! l with
      | None => true
      | Some a => exact_call o a
      end
  end.

(** A call of the client that comes without rounding: [createAccount] is
    given numbers, and the methods it calls on the accounts are exact. *)
Definition exact_step (c : Command float) (s : State float) : bool :=
  match c with
  | call_addCustomer _ _ => true
  | call_createAccount _ _ initialBalance interestRate overdraftLimit =>
      is_number initialBalance && is_number interestRate
      && is_number overdraftLimit
  | call_deposit n amount => exact_on n (op_deposit amount) s
  | call_withdraw n amount => exact_on n (op_withdraw amount) s
  | call_applyInterest n => exact_on n op_applyInterest s
  | call_transferFunds f t amount =>
      exact_on f (op_withdraw amount) s && exact_on t (op_deposit amount) s
  end.

(** Every call of the run [cs] from the state [s] is exact in the state it
    is made in. *)
Fixpoint exact_run (cs : list (Command float)) (s : State float) : bool :=
  match cs with
  | [] => true
  | c :: cs => exact_step c s && exact_run cs (step c s)
  end.

(** The balance and the derived member of an account are numbers within
    the limits of its class: a balance of at least 0 without overdraft, an
    interest rate from 0 to 1, a balance of at least minus the overdraft
    limit. *)
Definition within_limits (a : Account float) : Prop :=
  exists vb, value (_balance a) = Some vb /\
    match dynamic a with
    | IsAccount => 0 <= vb
    | IsSavingsAccount r =>
        0 <= vb /\ exists vr, value r = Some vr /\ 0 <= vr <= 2 ^ 1074
    | IsCheckingAccount l => exists vl, value l = Some vl /\ - vl <= vb
    end.

(** ** The program of [main] (bank1.cpp:427) *)

(** The customers and accounts [main] opens, then its calls on Alice's two
    accounts. *)
Definition opened : list (Command float) :=
  [call_addCustomer "Alice Smith" "123 Main St, Anytown";
   call_addCustomer "Bob Johnson" "456 Oak Ave, Otherville";
   call_createAccount "C1000" "savings" 1000 0.015 0;
   call_createAccount "C1000" "checking" 500 0 200;
   call_createAccount "C1001" "savings" 2500 0.01 0;
   call_createAccount "C1001" "checking" 100 0 500]%float.

Definition operated : list (Command float) :=
  opened ++
  [call_deposit "ACC100000" 200; call_withdraw "ACC100000" 50;
   call_applyInterest "ACC100000";
   call_deposit "ACC100001" 100; call_withdraw "ACC100001" 700;
   call_withdraw "ACC100001" 300]%float.

Definition Global_Bank : string := "Global Bank Inc.".

(** Alice's savings account as [main] opens it, and the calls on it. *)
Definition alice_savings : Account float :=
  {| _accountNumber := "ACC100000"; _ownerName := "Alice Smith";
     _balance := 1000; _transactions := [];
     dynamic := IsSavingsAccount 0.015 |}%float.

Definition alice_ops : list (Op float) :=
  [op_deposit 200; op_withdraw 50; op_applyInterest]%float.

(** Bob's checking account as [main] opens it. *)
Definition bob_checking : Account float :=
  {| _accountNumber := "ACC100003"; _ownerName := "Bob Johnson";
     _balance := 100; _transactions := [];
     dynamic := IsCheckingAccount 500 |}%float.

(** ** Enumeration and reports (bank1.cpp:129, 163, 208, 264, 273, 392, 411) *)

(** The order in which a [std::map<string, T>] is traversed: by increasing
    key, strings compared character by character. *)
Definition key_le {A : Type} (x y : string * A) : Prop :=
  Stdlib.Strings.String.leb x.1 y.1 = true.

#[export] Instance key_le_dec {A : Type} (x y : string * A) :
  Decision (key_le x y) := decide (Stdlib.Strings.String.leb x.1 y.1 = true).

Definition in_key_order {A : Type} (m : gmap string A) : list (string * A) :=
  merge_sort key_le (map_to_list m).

(** [Customer::getAllAccounts] (bank1.cpp:264). *)
Definition getAllAccounts (c : Customer) : list loc :=
  (in_key_order (c_accounts c)).*2.

(** What the [printDetails] methods and the two [display] methods of the
    bank print, one constructor for each line, with the values its text is
    formatted from ([savings_details] prints the rate as a percentage). *)
Inductive Report (D : Type) :=
| account_details (accountNumber ownerName : string) (balance : D)
| savings_details (accountNumber ownerName : string) (balance interestRate : D)
| checking_details (accountNumber ownerName : string) (balance overdraftLimit : D)
| customer_details (customerId name address : string) (accounts : nat)
| listed (details : Report D)
| no_customers
| customers_header
| customers_footer
| no_accounts
| accounts_header
| accounts_footer.
Arguments account_details {D}.
Arguments savings_details {D}.
Arguments checking_details {D}.
Arguments customer_details {D}.
Arguments listed {D}.
Arguments no_customers {D}.
Arguments customers_header {D}.
Arguments customers_footer {D}.
Arguments no_accounts {D}.
Arguments accounts_header {D}.
Arguments accounts_footer {D}.

Section Reports.
Context {D : Type}.

(** The virtual [printDetails] of the three account classes
    (bank1.cpp:129, 163, 208). *)
Definition printDetails (a : Account D) : Report D :=
  match dynamic a with
  | IsAccount => account_details (_accountNumber a) (_ownerName a) (_balance a)
  | IsSavingsAccount r =>
      savings_details (_accountNumber a) (_ownerName a) (_balance a) r
  | IsCheckingAccount l =>
      checking_details (_accountNumber a) (_ownerName a) (_balance a) l
  end.

(** [Customer::printDetails] (bank1.cpp:273). *)
Definition Customer_printDetails (c : Customer) : Report D :=
  customer_details (_customerId c) (c_name c) (_address c) (size (c_accounts c)).

(** The objects a list of pointers leads to; a pointer kept in a map is
    never dangling. *)
Definition objects (h : list (Account D)) (ls : list loc) : list (Account D) :=
  omap (fun l => h !! l) ls.

(** [Bank::displayAllAccounts] (bank1.cpp:411). *)
Definition displayAllAccounts (s : State D) : list (Report D) :=
  if bool_decide (size (b_accounts (bank s)) = 0%nat) then [no_accounts]
  else
    accounts_header ::
    (printDetails <$> objects (heap s) (in_key_order (b_accounts (bank s))).*2)
    ++ [accounts_footer].

(** [Bank::displayAllCustomers] (bank1.cpp:392). *)
Definition displayAllCustomers (s : State D) : list (Report D) :=
  if bool_decide (size (_customers (bank s)) = 0%nat) then [no_customers]
  else
    customers_header ::
    (in_key_order (_customers (bank s)) ≫= fun p =>
       Customer_printDetails p.2 ::
       (listed ∘ printDetails <$> objects (heap s) (getAllAccounts p.2)))
    ++ [customers_footer].

End Reports.

(** ** The registry *)

Section Registry.
Context {D : Type} `{Double D}.

(** The state [createAccount] leaves when it registers the new object [a]
    for [customer], found under [cid]. *)
Definition register (cid : string) (customer : Customer) (a : Account D)
    (s : State D) : State D :=
  {| heap := heap s ++ [a];
     bank :=
       {| b_name := b_name (bank s);
          _customers :=
            <[cid := {| _customerId := _customerId customer;
                        c_name := c_name customer;
                        _address := _address customer;
                        c_accounts := <[_accountNumber a := length (heap s)]>
                                        (c_accounts customer) |}]>
              (_customers (bank s));
          b_accounts :=
            <[_accountNumber a := length (heap s)]> (b_accounts (bank s));
          _nextCustomerId := _nextCustomerId (bank s);
          _nextAccountNumber := _nextAccountNumber (bank s) + 1 |} |}.

(** What holds of the registry in every state the clients can reach: the
    maps and the heap agree ([wf]), every object is registered under its
    own number, every customer is filed under its own identifier, which the
    counter has passed, with a name and an address, and every account is in
    the portfolio of exactly one customer, whose name it carries. *)
Record sound (s : State D) : Prop := {
  sound_wf : wf s;
  sound_registered : forall l a, heap s !! l = Some a ->
    getAccount (_accountNumber a) s = Some l;
  sound_customer : forall cid c, getCustomer cid s = Some c ->
    _customerId c = cid /\ c_name c <> "" /\ _address c <> "" /\
    exists m, cid = "C" +:+ to_string m /\ m < _nextCustomerId (bank s);
  sound_owner : forall k l, getAccount k s = Some l ->
    exists cid c a,
      getCustomer cid s = Some c /\ Customer_getAccount k c = Some l /\
      heap s !! l = Some a /\ _ownerName a = c_name c /\
      forall cid' c', getCustomer cid' s = Some c' ->
        is_Some (Customer_getAccount k c') -> cid' = cid
}.

End Registry.

(** The state [main] reaches before its transfers. *)
Definition after_main : State float := run operated (new_Bank Global_Bank).

(** * Account methods *)

Section AccountFacts.
Context {D : Type} `{Double D}.
Implicit Types (a : Account D) (amount : D).

Lemma deposit_accepts amount a :
  (deposit amount a).1.1 = negb (d_le amount d_zero).
Proof. unfold deposit. by destruct (d_le amount d_zero). Qed.

Lemma deposit_accepted amount a :
  (deposit amount a).1.1 = true ->
  (deposit amount a).1.2
  = record "Deposit" amount (d_add (_balance a) amount) a.
Proof. unfold deposit. by destruct (d_le amount d_zero). Qed.

Lemma deposit_rejected amount a :
  (deposit amount a).1.1 = false -> (deposit amount a).1.2 = a.
Proof. unfold deposit. by destruct (d_le amount d_zero). Qed.

Lemma withdraw_accepts amount a :
  (withdraw amount a).1.1 = negb (d_le amount d_zero) && permits amount a.
Proof.
  unfold withdraw, permits, Account_withdraw, CheckingAccount_withdraw.
  destruct (dynamic a) as [|r|l], (d_le amount d_zero); simpl; try done.
  - by destruct (d_lt (_balance a) amount).
  - by destruct (d_lt (_balance a) amount).
  - by destruct (d_lt (d_add (_balance a) l) amount).
Qed.

Lemma withdraw_accepted amount a :
  (withdraw amount a).1.1 = true ->
  (withdraw amount a).1.2
  = record "Withdrawal" amount (d_sub (_balance a) amount) a.
Proof.
  unfold withdraw, Account_withdraw, CheckingAccount_withdraw.
  destruct (dynamic a) as [|r|l], (d_le amount d_zero); simpl; try done.
  - by destruct (d_lt (_balance a) amount).
  - by destruct (d_lt (_balance a) amount).
  - by destruct (d_lt (d_add (_balance a) l) amount).
Qed.

Lemma withdraw_rejected amount a :
  (withdraw amount a).1.1 = false -> (withdraw amount a).1.2 = a.
Proof.
  unfold withdraw, Account_withdraw, CheckingAccount_withdraw.
  destruct (dynamic a) as [|r|l], (d_le amount d_zero); simpl; try done.
  - by destruct (d_lt (_balance a) amount).
  - by destruct (d_lt (_balance a) amount).
  - by destruct (d_lt (d_add (_balance a) l) amount).
Qed.

(** Every call either leaves the object as it is or records one
    transaction. *)
Lemma apply_op_cases (o : Op D) a :
  apply_op o a = a \/
  exists ty amt b, apply_op o a = record ty amt b a /\
    ((ty = "Deposit" \/ ty = "Interest Applied") /\ b = d_add (_balance a) amt \/
     ty = "Withdrawal" /\ b = d_sub (_balance a) amt).
Proof.
  destruct o as [amount|amount|]; simpl.
  - destruct ((deposit amount a).1.1) eqn:E.
    + right. rewrite deposit_accepted by done. naive_solver.
    + left. by apply deposit_rejected.
  - destruct ((withdraw amount a).1.1) eqn:E.
    + right. rewrite withdraw_accepted by done. naive_solver.
    + left. by apply withdraw_rejected.
  - unfold applyInterest. destruct (dynamic a); naive_solver.
Qed.

Lemma apply_op_accountNumber (o : Op D) a :
  _accountNumber (apply_op o a) = _accountNumber a.
Proof. by destruct (apply_op_cases o a) as [->|(?&?&?&->&_)]. Qed.

Lemma apply_op_dynamic (o : Op D) a : dynamic (apply_op o a) = dynamic a.
Proof. by destruct (apply_op_cases o a) as [->|(?&?&?&->&_)]. Qed.

Lemma replay_snoc (h : list (Transaction D)) (t : Transaction D) (start : D) :
  replay (h ++ [t]) start = applyDelta (replay h start) t.
Proof. unfold replay. by rewrite foldl_app. Qed.

Lemma created_fresh a (initialBalance : D) :
  created a initialBalance ->
  _balance a = initialBalance /\ _transactions a = [].
Proof.
  intros (n & o & Hc). unfold new_SavingsAccount, new_CheckingAccount in Hc.
  unfold new_Account, throw_if in Hc.
  destruct Hc as [Hc|[[r Hc]|[l Hc]]];
    destruct (is_empty n), (is_empty o), (d_lt initialBalance d_zero);
    simpl in Hc; try discriminate.
  - by injection Hc as <-.
  - destruct (d_lt r d_zero || d_lt d_one r); simpl in Hc; try discriminate.
    by injection Hc as <-.
  - destruct (d_lt l d_zero); simpl in Hc; try discriminate.
    by injection Hc as <-.
Qed.

Lemma apply_op_replay (o : Op D) a (start : D) :
  _balance a = replay (_transactions a) start ->
  _balance (apply_op o a) = replay (_transactions (apply_op o a)) start.
Proof.
  intros Ha.
  destruct (apply_op_cases o a) as [->|(ty & amt & b & -> & Hty)]; [done|].
  simpl. rewrite replay_snoc, <- Ha. unfold applyDelta. simpl.
  destruct Hty as [[[-> | ->] ->] | [-> ->]]; done.
Qed.

(** C1, as the code has it: the constructors record no transaction for the
    initial balance, so after any sequence of [deposit], [withdraw] and
    [applyInterest] calls the balance of an account is the replay of its
    history starting from its initial balance (not from 0). *)
Theorem balance_replays_history_from_initial_balance
    (a : Account D) (initialBalance : D) (ops : list (Op D)) :
  created a initialBalance ->
  _balance (run_ops ops a)
  = replay (_transactions (run_ops ops a)) initialBalance.
Proof.
  intros Hc. destruct (created_fresh a initialBalance Hc) as [Hb Ht].
  assert (Ha : _balance a = replay (_transactions a) initialBalance)
    by (by rewrite Hb, Ht).
  clear Hc Hb Ht. revert a Ha. unfold run_ops.
  induction ops as [|o ops IH]; intros a Ha; [done|].
  simpl. apply IH. by apply apply_op_replay.
Qed.

(** C7: a rejected [deposit] or [withdraw] returns [false] and leaves the
    account, hence its balance and the length of its history, as it was; a
    call is rejected exactly when the amount is not positive or, for
    [withdraw], when the policy of the account forbids it. *)
Theorem rejected_call_leaves_account_unchanged amount a :
  ((deposit amount a).1.1 = false <-> d_le amount d_zero = true) /\
  ((withdraw amount a).1.1 = false <->
     d_le amount d_zero = true \/ permits amount a = false) /\
  ((deposit amount a).1.1 = false ->
     (deposit amount a).1.2 = a /\
     _balance (deposit amount a).1.2 = _balance a /\
     length (_transactions (deposit amount a).1.2) = length (_transactions a)) /\
  ((withdraw amount a).1.1 = false ->
     (withdraw amount a).1.2 = a /\
     _balance (withdraw amount a).1.2 = _balance a /\
     length (_transactions (withdraw amount a).1.2) = length (_transactions a)).
Proof.
  split_and!.
  - rewrite deposit_accepts. by destruct (d_le amount d_zero).
  - rewrite withdraw_accepts.
    destruct (d_le amount d_zero), (permits amount a); simpl;
      intuition discriminate.
  - intros E. by rewrite (deposit_rejected _ _ E).
  - intros E. by rewrite (withdraw_rejected _ _ E).
Qed.

End AccountFacts.

(** * The bank *)

Section BankFacts.
Context {D : Type} `{Double D}.
Implicit Types (s : State D) (a b : Account D) (amount : D) (l : loc).

Lemma account_number_inj (n m : Z) :
  "ACC" +:+ to_string n = "ACC" +:+ to_string m -> n = m.
Proof. simpl. intros E. injection E. apply pretty_Z_inj. Qed.

Lemma new_Account_Return n o i a :
  new_Account n o i = Return a ->
  a = {| _accountNumber := n; _ownerName := o; _balance := i;
         _transactions := []; dynamic := IsAccount |} /\
  d_lt i d_zero = false.
Proof.
  unfold new_Account, throw_if.
  destruct (is_empty n), (is_empty o), (d_lt i d_zero); try discriminate.
  by intros [= <-].
Qed.

Lemma construct_Return ty n o i r lim a :
  construct ty n o i r lim = Some (Return a) ->
  _accountNumber a = n /\ _balance a = i /\ _transactions a = [] /\
  d_lt i d_zero = false /\
  (dynamic a = IsSavingsAccount r \/
   dynamic a = IsCheckingAccount lim /\ d_lt lim d_zero = false).
Proof.
  unfold construct, new_SavingsAccount, new_CheckingAccount.
  repeat case_bool_decide; try discriminate; intros [= E]; revert E;
    destruct (new_Account n o i) as [a0|e] eqn:E0; try discriminate;
    apply new_Account_Return in E0 as [-> Hi]; simpl; unfold throw_if.
  - destruct (d_lt r d_zero || d_lt d_one r); try discriminate.
    intros [= <-]. simpl. split_and!; auto.
  - destruct (d_lt lim d_zero) eqn:El; try discriminate.
    intros [= <-]. simpl. split_and!; auto.
Qed.

(** What [createAccount] leaves behind: nothing but an advanced counter, or
    one new object registered in both maps. *)
Lemma createAccount_cases cid ty i r lim s :
  let s' := (createAccount cid ty i r lim s).1.2 in
  let n := _nextAccountNumber (bank s) in
  (heap s' = heap s /\ b_accounts (bank s') = b_accounts (bank s) /\
   _customers (bank s') = _customers (bank s) /\
   n <= _nextAccountNumber (bank s')) \/
  (exists customer customer' a,
     getCustomer cid s = Some customer /\
     construct ty ("ACC" +:+ to_string n) (getName customer) i r lim
       = Some (Return a) /\
     heap s' = heap s ++ [a] /\
     b_accounts (bank s')
       = <["ACC" +:+ to_string n := length (heap s)]> (b_accounts (bank s)) /\
     _customers (bank s') = <[cid := customer']> (_customers (bank s)) /\
     c_accounts customer'
       = <["ACC" +:+ to_string n := length (heap s)]> (c_accounts customer) /\
     _nextAccountNumber (bank s') = n + 1).
Proof.
  unfold createAccount. destruct (getCustomer cid s) as [customer|] eqn:Ec.
  2: { left. simpl. repeat split; lia. }
  destruct (construct ty _ (getName customer) i r lim) as [[a|e]|] eqn:Ea.
  2, 3: left; simpl; repeat split; lia.
  right. exists customer.
  pose proof (construct_Return _ _ _ _ _ _ _ Ea) as (Hn & _).
  unfold make_shared, addAccount. simpl.
  rewrite list_lookup_middle by done. simpl. unfold getAccountNumber.
  rewrite Hn. eexists _, a. split_and!; try done.
Qed.

Lemma addCustomer_cases name address s :
  let s' := (addCustomer name address s).1.2 in
  heap s' = heap s /\ b_accounts (bank s') = b_accounts (bank s) /\
  _nextAccountNumber (bank s') = _nextAccountNumber (bank s) /\
  (_customers (bank s') = _customers (bank s) \/
   exists cid c, _customers (bank s') = <[cid := c]> (_customers (bank s)) /\
     c_accounts c = ∅).
Proof.
  unfold addCustomer, new_Customer, throw_if.
  destruct (is_empty _), (is_empty name), (is_empty address); simpl;
    split_and!; try done; auto.
  right. by eexists _, _.
Qed.

Lemma calls_one s l a (o : Op D) :
  heap s !! l = Some a -> calls s (store l (apply_op o a) s).
Proof. intros. eapply calls_more; [done|constructor]. Qed.

Lemma store_same s l a : heap s !! l = Some a -> store l a s = s.
Proof.
  intros E. unfold store, set_heap. rewrite list_insert_id by done.
  by destruct s.
Qed.

Lemma on_account_calls n (o : Op D) s : calls s (on_account n o s).
Proof.
  unfold on_account. destruct (getAccount n s) as [l|]; [|constructor].
  destruct (heap s !! l) as [a|] eqn:E; [|constructor]. by apply calls_one.
Qed.

(** The state after [transferFunds], when both accounts are found, differ
    and the amount passes the test. *)
Lemma transferFunds_run f t amount s lf lt a :
  getAccount f s = Some lf -> getAccount t s = Some lt -> f <> t ->
  d_le amount d_zero = false -> heap s !! lf = Some a ->
  transferFunds f t amount s =
    if (withdraw amount a).1.1 then
      let s1 := store lf (withdraw amount a).1.2 s in
      match heap s1 !! lt with
      | None => (true, s1, (withdraw amount a).2)
      | Some b =>
          (true, store lt (deposit amount b).1.2 s1,
           (withdraw amount a).2 ++ (deposit amount b).2 ++ [transferred amount f t])
      end
    else (false, s, (withdraw amount a).2 ++ [transfer_failed]).
Proof.
  intros Ef Et Hne Hpos Ea. unfold transferFunds.
  rewrite Ef, Et, bool_decide_eq_false_2, Hpos, Ea by done.
  destruct (withdraw amount a) as [[ok a'] out1] eqn:Ew. simpl.
  destruct ok.
  - destruct (<[lf:=a']> (heap s) !! lt) as [b|]; [|done].
    by destruct (deposit amount b) as [[ok2 b'] out2].
  - assert (a' = a) as ->; [|by rewrite store_same].
    pose proof (withdraw_rejected amount a) as E. rewrite Ew in E. by apply E.
Qed.

Lemma transferFunds_calls f t amount s :
  calls s (transferFunds f t amount s).1.2.
Proof.
  destruct (getAccount f s) as [lf|] eqn:Ef.
  2: { unfold transferFunds. rewrite Ef. constructor. }
  destruct (getAccount t s) as [lt|] eqn:Et.
  2: { unfold transferFunds. rewrite Ef, Et. constructor. }
  destruct (decide (f = t)) as [Heq|Hne].
  { unfold transferFunds. rewrite Ef, Et, bool_decide_eq_true_2 by done.
    constructor. }
  destruct (d_le amount d_zero) eqn:Hpos.
  { unfold transferFunds. rewrite Ef, Et, bool_decide_eq_false_2, Hpos by done.
    constructor. }
  destruct (heap s !! lf) as [a|] eqn:Ea.
  2: { unfold transferFunds.
       rewrite Ef, Et, bool_decide_eq_false_2, Hpos, Ea by done. constructor. }
  rewrite (transferFunds_run f t amount s lf lt a) by done.
  destruct ((withdraw amount a).1.1); [|constructor]. cbv zeta.
  destruct (heap (store lf (withdraw amount a).1.2 s) !! lt) as [b|] eqn:Eb.
  - apply (calls_more s lf a (op_withdraw amount)); [done|].
    by apply (calls_one _ lt b (op_deposit amount)).
  - by apply (calls_one s lf a (op_withdraw amount)).
Qed.

Lemma run_ops_cons (o : Op D) ops a :
  run_ops (o :: ops) a = run_ops ops (apply_op o a).
Proof. done. Qed.

Lemma run_ops_accountNumber (ops : list (Op D)) a :
  _accountNumber (run_ops ops a) = _accountNumber a.
Proof.
  revert a. induction ops as [|o ops IH]; intros a; [done|].
  by rewrite run_ops_cons, IH, apply_op_accountNumber.
Qed.

Lemma run_ops_dynamic (ops : list (Op D)) a :
  dynamic (run_ops ops a) = dynamic a.
Proof.
  revert a. induction ops as [|o ops IH]; intros a; [done|].
  by rewrite run_ops_cons, IH, apply_op_dynamic.
Qed.

Lemma calls_bank s s' : calls s s' -> bank s' = bank s.
Proof. induction 1 as [|s l a o s' _ _ IH]; [done|]. by rewrite IH. Qed.

(** Method calls change objects in place: each location holds the object it
    held before, after some calls on it. *)
Lemma calls_lookup s s' l :
  calls s s' ->
  heap s !! l = None /\ heap s' !! l = None \/
  exists b ops, heap s !! l = Some b /\ heap s' !! l = Some (run_ops ops b).
Proof.
  induction 1 as [s|s l0 a o s' Ha _ IH].
  - destruct (heap s !! l) as [b|] eqn:E; [|by left].
    right. by exists b, [].
  - simpl in IH. destruct IH as [[E1 E2]|(b & ops & E1 & E2)].
    + left. by apply list_lookup_insert_None in E1.
    + right. apply list_lookup_insert_Some in E1 as [(-> & <- & _)|[_ E1]].
      * by exists a, (o :: ops).
      * by exists b, ops.
Qed.

Lemma step_cases (c : Command D) s :
  calls s (step c s) \/
  (exists name address, step c s = (addCustomer name address s).1.2) \/
  (exists cid ty i r lim, step c s = (createAccount cid ty i r lim s).1.2).
Proof.
  destruct c; simpl; eauto 10 using on_account_calls, transferFunds_calls.
Qed.

Lemma run_snoc (cs : list (Command D)) c s :
  run (cs ++ [c]) s = step c (run cs s).
Proof. unfold run. by rewrite foldl_app. Qed.

(** ** The maps and the heap agree in every reachable state *)

Lemma wf_new_Bank name : wf (new_Bank (D:=D) name).
Proof. split; simpl; intros *; by rewrite ?lookup_empty. Qed.

Lemma wf_calls s s' : calls s s' -> wf s -> wf s'.
Proof.
  intros Hc [Ha Hcu Hn]. pose proof (calls_bank _ _ Hc) as Eb.
  split; rewrite ?Eb.
  - intros k l (a & E & Hk)%Ha.
    destruct (calls_lookup s s' l Hc) as [[? _]|(b & ops & E1 & E2)];
      [congruence|].
    exists (run_ops ops b). rewrite run_ops_accountNumber. split; congruence.
  - done.
  - intros l a' E.
    destruct (calls_lookup s s' l Hc) as [[_ ?]|(b & ops & E1 & E2)];
      [congruence|].
    destruct (Hn l b E1) as (n & E3 & ?). exists n.
    assert (a' = run_ops ops b) as -> by congruence.
    by rewrite run_ops_accountNumber.
Qed.

Lemma wf_addCustomer name address s :
  wf s -> wf (addCustomer name address s).1.2.
Proof.
  intros [Ha Hcu Hn].
  destruct (addCustomer_cases name address s) as (Eh & Eb & En & Ec).
  split; rewrite ?Eh, ?Eb, ?En; try done.
  destruct Ec as [->|(cid & c & -> & Hc)]; [done|].
  intros cid' c' k l [[-> <-]|[_ E]]%lookup_insert_Some; [|by eauto].
  by rewrite Hc, lookup_empty.
Qed.

Lemma wf_fresh_number s :
  wf s ->
  b_accounts (bank s) !! ("ACC" +:+ to_string (_nextAccountNumber (bank s)))
  = None.
Proof.
  intros [Ha _ Hn]. apply eq_None_not_Some. intros [l (a & E & Hk)%Ha].
  destruct (Hn l a E) as (n & E' & Hlt).
  rewrite Hk in E'. apply account_number_inj in E'. lia.
Qed.

Lemma wf_createAccount cid ty i r lim s :
  wf s -> wf (createAccount cid ty i r lim s).1.2.
Proof.
  intros Hwf. pose proof (wf_fresh_number s Hwf) as Hfresh.
  destruct Hwf as [Ha Hcu Hn].
  destruct (createAccount_cases cid ty i r lim s)
    as [(Eh & Eb & Ec & En)|(cu & cu' & a & Ecu & Ea & Eh & Eb & Ec & Ecu' & En)].
  { split; rewrite ?Eh, ?Eb, ?Ec; try done.
    intros l a (n & ? & ?)%Hn. exists n. split; [done|lia]. }
  apply construct_Return in Ea as (Hnum & _).
  split; rewrite ?Eh, ?Eb, ?Ec, ?En.
  - intros k l [[<- <-]|[_ E]]%lookup_insert_Some.
    + exists a. by rewrite list_lookup_middle.
    + destruct (Ha k l E) as (a0 & E0 & ?). exists a0.
      rewrite lookup_app_l by (by eapply lookup_lt_Some). done.
  - intros cid' c k l [[<- <-]|[_ E]]%lookup_insert_Some.
    + rewrite Ecu'. intros [[<- <-]|[Hk E]]%lookup_insert_Some.
      * by rewrite lookup_insert_eq.
      * rewrite lookup_insert_ne by done. by eapply Hcu.
    + intros Ek. pose proof (Hcu _ _ _ _ E Ek) as E'.
      rewrite lookup_insert_ne; [done|]. intros <-. congruence.
  - intros l a' [[_ E]|[_ <-]]%lookup_snoc_Some.
    + destruct (Hn l a' E) as (n & ? & ?). exists n. split; [done|lia].
    + exists (_nextAccountNumber (bank s)). split; [done|lia].
Qed.

Lemma wf_step (c : Command D) s : wf s -> wf (step c s).
Proof.
  intros Hwf.
  destruct (step_cases c s)
    as [Hc|[(name & address & ->)|(cid & ty & i & r & lim & ->)]];
    eauto using wf_calls, wf_addCustomer, wf_createAccount.
Qed.

Lemma wf_run (cs : list (Command D)) s : wf s -> wf (run cs s).
Proof.
  induction cs as [|c cs IH] using rev_ind; [done|].
  intros Hwf. rewrite run_snoc. by apply wf_step, IH.
Qed.

(** Two account numbers the bank knows name the same object only if they
    are the same number. *)
Lemma wf_distinct s f t lf lt :
  wf s -> getAccount f s = Some lf -> getAccount t s = Some lt ->
  f <> t ->
  lf <> lt /\
  exists a b, heap s !! lf = Some a /\ heap s !! lt = Some b.
Proof.
  intros [Ha _ _] (a & Ea & Hf)%Ha (b & Eb & Ht)%Ha Hne.
  split; [|by eauto]. intros ->. congruence.
Qed.

End BankFacts.

(** * Transfers *)

Section Transfers.
Context {D : Type} `{Double D}.
Implicit Types (s : State D) (a b : Account D) (amount : D) (l : loc).

(** C2: when both accounts exist and differ, the amount passes the test
    and [withdraw] on the source is rejected, [transferFunds] returns
    [false], ends its output with the line of the failed transfer and
    leaves the whole state, the destination object included, as it was. *)
Theorem failed_withdrawal_leaves_destination_untouched
    f t amount s lf lt a :
  getAccount f s = Some lf -> getAccount t s = Some lt -> f <> t ->
  d_le amount d_zero = false ->
  heap s !! lf = Some a ->
  (withdraw amount a).1.1 = false ->
  transferFunds f t amount s
    = (false, s, (withdraw amount a).2 ++ [transfer_failed]) /\
  heap (transferFunds f t amount s).1.2 !! lt = heap s !! lt.
Proof.
  intros Ef Et Hne Hpos Ea Hw.
  rewrite (transferFunds_run f t amount s lf lt a) by done.
  by rewrite Hw.
Qed.

(** C6: the four tests of [transferFunds] in their order.  Each failure
    returns [false], leaves the state as it was and prints its own line;
    an earlier failure is reported whatever the later tests would say. *)
Theorem transferFunds_checks_in_order f t amount s :
  (getAccount f s = None ->
     transferFunds f t amount s = (false, s, [source_not_found f])) /\
  (is_Some (getAccount f s) -> getAccount t s = None ->
     transferFunds f t amount s = (false, s, [destination_not_found t])) /\
  (is_Some (getAccount f s) -> is_Some (getAccount t s) -> f = t ->
     transferFunds f t amount s = (false, s, [same_account])) /\
  (is_Some (getAccount f s) -> is_Some (getAccount t s) -> f <> t ->
     d_le amount d_zero = true ->
     transferFunds f t amount s = (false, s, [transfer_not_positive])) /\
  NoDup [source_not_found (D:=D) f; destination_not_found t; same_account;
         transfer_not_positive].
Proof.
  unfold transferFunds. split_and!.
  - by intros ->.
  - by intros [lf ->] ->.
  - intros [lf ->] [lt ->] Heq. by rewrite bool_decide_eq_true_2.
  - intros [lf ->] [lt ->] Hne ->. by rewrite bool_decide_eq_false_2.
  - apply NoDup_ListNoDup. repeat constructor; simpl; intuition discriminate.
Qed.

Lemma transferFunds_success s f t amount lf lt a b :
  wf s ->
  getAccount f s = Some lf -> getAccount t s = Some lt -> f <> t ->
  d_le amount d_zero = false ->
  heap s !! lf = Some a -> heap s !! lt = Some b ->
  (withdraw amount a).1.1 = true ->
  lf <> lt /\
  transferFunds f t amount s =
    (true,
     store lt (record "Deposit" amount (d_add (_balance b) amount) b)
       (store lf (record "Withdrawal" amount (d_sub (_balance a) amount) a) s),
     (withdraw amount a).2 ++
       [deposited amount t (d_add (_balance b) amount);
        transferred amount f t]).
Proof.
  intros Hwf Ef Et Hne Hpos Ea Eb Hw.
  destruct (wf_distinct s f t lf lt Hwf Ef Et Hne) as [Hl _]. split; [done|].
  destruct Hwf as [Hacc _ _]. destruct (Hacc t lt Et) as (b0 & Eb0 & Hnum).
  assert (b0 = b) as -> by congruence.
  rewrite (transferFunds_run f t amount s lf lt a) by done.
  rewrite Hw, withdraw_accepted by done. simpl.
  rewrite list_lookup_insert_ne, Eb by done.
  unfold deposit. by rewrite Hpos, Hnum.
Qed.

(** C5, as the code has it: a transfer that passes the four tests and the
    withdrawal policy returns [true] and nothing else.  The two resulting
    balances are left in the two account objects, where [getBalance] reads
    them, and are printed in the lines of the withdrawal and the deposit. *)
Theorem successful_transfer_returns_true
    (name : string) (cs : list (Command D)) f t amount lf lt a b :
  let s := run cs (new_Bank name) in
  getAccount f s = Some lf -> getAccount t s = Some lt -> f <> t ->
  d_le amount d_zero = false ->
  heap s !! lf = Some a -> heap s !! lt = Some b ->
  permits amount a = true ->
  let r := transferFunds f t amount s in
  let fromBalance := d_sub (_balance a) amount in
  let toBalance := d_add (_balance b) amount in
  r.1.1 = true /\
  getBalance <$> heap r.1.2 !! lf = Some fromBalance /\
  getBalance <$> heap r.1.2 !! lt = Some toBalance /\
  r.2 = [match dynamic a with
         | IsCheckingAccount _ => withdrew_checking amount f fromBalance
         | _ => withdrew amount f fromBalance
         end;
         deposited amount t toBalance;
         transferred amount f t].
Proof.
  intros s Ef Et Hne Hpos Ea Eb Hp r fromBalance toBalance.
  assert (Hwf : wf s) by apply wf_run, wf_new_Bank.
  assert (Hw : (withdraw amount a).1.1 = true)
    by (by rewrite withdraw_accepts, Hpos, Hp).
  destruct (transferFunds_success s f t amount lf lt a b) as [Hl E]; try done.
  subst r. rewrite E. simpl. split_and!; [done|..].
  - rewrite list_lookup_insert_ne by done.
    rewrite list_lookup_insert_eq by (by eapply lookup_lt_Some). done.
  - rewrite list_lookup_insert_eq; [done|].
    rewrite length_insert. by eapply lookup_lt_Some.
  - destruct Hwf as [Hacc _ _]. destruct (Hacc f lf Ef) as (a0 & Ea0 & Hnum).
    assert (a0 = a) as -> by congruence.
    unfold withdraw, permits, Account_withdraw, CheckingAccount_withdraw in *.
    rewrite Hpos. destruct (dynamic a) as [|rate|lim];
      apply negb_true_iff in Hp; rewrite Hp, Hnum; done.
Qed.

(** C9, as the code has it: after a successful [transferFunds] the source
    holds its balance minus the amount and the destination its balance plus
    the amount, each as [double] subtraction and addition give it; no other
    object and nothing in the bank changes.  Where the arithmetic is exact
    the two balances sum to what they summed to before. *)
Theorem successful_transfer_moves_amount
    (name : string) (cs : list (Command D)) f t amount :
  let s := run cs (new_Bank name) in
  let s' := (transferFunds f t amount s).1.2 in
  (transferFunds f t amount s).1.1 = true ->
  exists lf lt a b,
    getAccount f s = Some lf /\ getAccount t s = Some lt /\ lf <> lt /\
    heap s !! lf = Some a /\ heap s !! lt = Some b /\
    heap s' !! lf
      = Some (record "Withdrawal" amount (d_sub (_balance a) amount) a) /\
    heap s' !! lt
      = Some (record "Deposit" amount (d_add (_balance b) amount) b) /\
    (forall l, l <> lf -> l <> lt -> heap s' !! l = heap s !! l) /\
    bank s' = bank s /\
    (forall E : Exact D,
       (toQ (d_sub (_balance a) amount) + toQ (d_add (_balance b) amount)
        == toQ (_balance a) + toQ (_balance b))%Q).
Proof.
  intros s s'. subst s'.
  assert (Hwf : wf s) by apply wf_run, wf_new_Bank.
  generalize dependent s. intros s Hwf Hok.
  destruct (getAccount f s) as [lf|] eqn:Ef.
  2: { unfold transferFunds in Hok. by rewrite Ef in Hok. }
  destruct (getAccount t s) as [lt|] eqn:Et.
  2: { unfold transferFunds in Hok. by rewrite Ef, Et in Hok. }
  destruct (decide (f = t)) as [Heq|Hne].
  { unfold transferFunds in Hok.
    by rewrite Ef, Et, bool_decide_eq_true_2 in Hok. }
  destruct (d_le amount d_zero) eqn:Hpos.
  { unfold transferFunds in Hok.
    by rewrite Ef, Et, bool_decide_eq_false_2, Hpos in Hok. }
  destruct (wf_distinct s f t lf lt Hwf Ef Et Hne) as [Hl (a & b & Ea & Eb)].
  destruct ((withdraw amount a).1.1) eqn:Hw.
  2: { rewrite (transferFunds_run f t amount s lf lt a) in Hok by done.
       by rewrite Hw in Hok. }
  destruct (transferFunds_success s f t amount lf lt a b) as [_ E]; try done.
  rewrite E. simpl. exists lf, lt, a, b. split_and!; try done.
  - rewrite list_lookup_insert_ne by done.
    rewrite list_lookup_insert_eq by (by eapply lookup_lt_Some). done.
  - rewrite list_lookup_insert_eq; [done|].
    rewrite length_insert. by eapply lookup_lt_Some.
  - intros l ? ?. by rewrite !list_lookup_insert_ne.
  - intros E'. rewrite toQ_sub, toQ_add. ring.
Qed.

End Transfers.

(** * Opening accounts *)

Section Opening.
Context {D : Type} `{Double D}.
Implicit Types (s : State D) (a b : Account D) (l : loc).

Lemma new_SavingsAccount_Throw n o (i r : D) :
  d_lt r d_zero || d_lt d_one r = true ->
  exists what, new_SavingsAccount n o i r = Throw (invalid_argument what).
Proof.
  intros Hr. unfold new_SavingsAccount, new_Account, throw_if.
  destruct (is_empty n), (is_empty o), (d_lt i d_zero); simpl; eauto.
  rewrite Hr. eauto.
Qed.

(** C8, as the code has it: for a customer the bank knows, opening a savings
    account with an interest rate below 0 or above 1 (the two tests of the
    constructor) throws [invalid_argument]; afterwards the bank's account
    map, every customer (with its account map) and the heap of account
    objects are what they were.  When the owner's name and the initial
    balance pass the base constructor, the exception is the one of the
    interest rate. *)
Theorem createAccount_rejects_interest_rate
    cid customer (initialBalance interestRate overdraftLimit : D) s :
  getCustomer cid s = Some customer ->
  d_lt interestRate d_zero || d_lt d_one interestRate = true ->
  let r := createAccount cid "savings" initialBalance interestRate
             overdraftLimit s in
  (exists what, r.1.1 = Throw (invalid_argument what)) /\
  b_accounts (bank r.1.2) = b_accounts (bank s) /\
  _customers (bank r.1.2) = _customers (bank s) /\
  heap r.1.2 = heap s /\
  (is_empty (getName customer) = false ->
   d_lt initialBalance d_zero = false ->
   r.1.1 = Throw (invalid_argument
     "Interest rate must be between 0 and 1 (e.g., 0.01 for 1%).")).
Proof.
  intros Ec Hr r. subst r. unfold createAccount, construct. rewrite Ec.
  rewrite bool_decide_eq_true_2 by done.
  destruct (new_SavingsAccount_Throw
              ("ACC" +:+ to_string (_nextAccountNumber (bank s)))
              (getName customer) initialBalance interestRate Hr) as [what E].
  rewrite E. simpl. split_and!; eauto.
  intros Hn Hi. unfold new_SavingsAccount, new_Account, throw_if in E.
  simpl in E. rewrite Hn, Hi in E. simpl in E. rewrite Hr in E.
  by injection E as <-.
Qed.

Lemma skipped_step n (c : Command D) s : skipped n s -> skipped n (step c s).
Proof.
  intros [Hlt Hobj].
  destruct (step_cases c s)
    as [Hc|[(name & address & ->)|(cid & ty & i & r & lim & ->)]].
  - split; [by rewrite (calls_bank _ _ Hc)|].
    intros l a' E.
    destruct (calls_lookup s _ l Hc) as [[_ ?]|(b & ops & E1 & E2)];
      [congruence|].
    assert (a' = run_ops ops b) as -> by congruence.
    rewrite run_ops_accountNumber. by eapply Hobj.
  - destruct (addCustomer_cases name address s) as (Eh & _ & En & _).
    split; [by rewrite En|by rewrite Eh].
  - destruct (createAccount_cases cid ty i r lim s)
      as [(Eh & _ & _ & En)|(cu & cu' & a & _ & Ea & Eh & _ & _ & _ & En)].
    + split; [lia|by rewrite Eh].
    + apply construct_Return in Ea as (Hnum & _).
      split; [lia|]. rewrite Eh.
      intros l a' [[_ E]|[_ <-]]%lookup_snoc_Some; [by eapply Hobj|].
      rewrite Hnum. intros E%account_number_inj. lia.
Qed.

Lemma skipped_run n (cs : list (Command D)) s :
  skipped n s -> skipped n (run cs s).
Proof.
  induction cs as [|c cs IH] using rev_ind; [done|].
  intros Hs. rewrite run_snoc. by apply skipped_step, IH.
Qed.

Lemma skipped_unassigned n s : wf s -> skipped n s -> unassigned n s.
Proof.
  intros [Ha Hcu _] [_ Hobj].
  assert (Hb : getAccount ("ACC" +:+ to_string n) s = None).
  { apply eq_None_not_Some. intros [l (a & E & Hk)%Ha]. by eapply Hobj. }
  split_and!; [done| |done].
  intros cid c Ec. apply eq_None_not_Some. intros [l E].
  unfold getAccount in Hb. by rewrite (Hcu _ _ _ _ Ec E) in Hb.
Qed.

(** C10: for a customer the bank knows, [createAccount] with a type that is
    neither ["savings"] nor ["checking"] returns [nullptr] and prints the
    line of the invalid type; the heap, the bank's account map and the
    customers are what they were, the counter has advanced by one, and
    whatever the clients do next, the account number generated for this
    call belongs to no account. *)
Theorem createAccount_invalid_type_consumes_number
    (name : string) (cs : list (Command D)) cid customer ty
    (initialBalance interestRate overdraftLimit : D) :
  let s := run cs (new_Bank name) in
  getCustomer cid s = Some customer ->
  ty <> "savings" -> ty <> "checking" ->
  let r := createAccount cid ty initialBalance interestRate overdraftLimit s in
  let n := _nextAccountNumber (bank s) in
  r.1.1 = Return None /\
  r.2 = [invalid_account_type] /\
  heap r.1.2 = heap s /\
  b_accounts (bank r.1.2) = b_accounts (bank s) /\
  _customers (bank r.1.2) = _customers (bank s) /\
  _nextAccountNumber (bank r.1.2) = n + 1 /\
  forall cs' : list (Command D), unassigned n (run cs' r.1.2).
Proof.
  intros s Ec Hs Hc r n.
  assert (Hwf : wf s) by apply wf_run, wf_new_Bank.
  assert (E : r = (Return None, set_nextAccountNumber (n + 1) s,
                   [invalid_account_type])).
  { subst r. unfold createAccount, construct. rewrite Ec.
    by rewrite !bool_decide_eq_false_2. }
  assert (Hwf' : wf r.1.2) by (by apply wf_createAccount).
  rewrite E in Hwf' |- *. simpl in Hwf' |- *. split_and!; try done.
  intros cs'. apply skipped_unassigned.
  - by apply wf_run.
  - apply skipped_run. split; simpl; [lia|].
    intros l a Ea. destruct Hwf as [_ _ Hn].
    destruct (Hn l a Ea) as (m & -> & Hm).
    intros E'%account_number_inj. subst n. lia.
Qed.

End Opening.

(** * IEEE binary64 *)

(** The order of [double], from the specification of the primitive floats. *)

Lemma SFcompare_swap (x y : spec_float) :
  SFcompare y x = CompOpp <$> SFcompare x y.
Proof.
  destruct x as [sx|sx| |sx mx ex], y as [sy|sy| |sy my ey]; simpl;
    try done; try (by destruct sx); try (by destruct sy);
    try (by destruct sx, sy).
  destruct sx, sy; simpl; try done.
  all: rewrite (Z.compare_antisym ex ey); destruct (ex ?= ey)%Z; simpl; try done.
  all: pose proof (Pos.compare_antisym mx my) as P; unfold Pos.compare in P;
    rewrite P; by destruct (Pos.compare_cont Eq mx my).
Qed.

Lemma SFcompare_None (x y : spec_float) :
  SFcompare x y = None -> x = S754_nan \/ y = S754_nan.
Proof.
  destruct x as [sx|sx| |sx mx ex], y as [sy|sy| |sy my ey]; simpl;
    auto; discriminate.
Qed.

Lemma is_nan_false (x : float) : is_nan x = false -> Prim2SF x <> S754_nan.
Proof.
  unfold is_nan. rewrite FloatAxioms.eqb_spec. intros E Hx. rewrite Hx in E. discriminate.
Qed.

Lemma ltb_leb_dual (x y : float) :
  is_nan x = false -> is_nan y = false ->
  PrimFloat.ltb x y = negb (PrimFloat.leb y x).
Proof.
  intros Hx%is_nan_false Hy%is_nan_false.
  rewrite FloatAxioms.ltb_spec, FloatAxioms.leb_spec. unfold SFltb, SFleb.
  rewrite (SFcompare_swap (Prim2SF x) (Prim2SF y)).
  destruct (SFcompare (Prim2SF x) (Prim2SF y)) as [[]|] eqn:E; try done.
  by destruct (SFcompare_None _ _ E).
Qed.

Lemma ltb_true_leb (x y : float) :
  PrimFloat.ltb x y = true -> PrimFloat.leb y x = false.
Proof.
  rewrite FloatAxioms.ltb_spec, FloatAxioms.leb_spec. unfold SFltb, SFleb.
  rewrite (SFcompare_swap (Prim2SF x) (Prim2SF y)).
  by destruct (SFcompare (Prim2SF x) (Prim2SF y)) as [[]|].
Qed.

Lemma ltb_true_not_nan (x y : float) :
  PrimFloat.ltb x y = true -> is_nan x = false /\ is_nan y = false.
Proof.
  intros E. unfold is_nan. rewrite !FloatAxioms.eqb_spec. rewrite FloatAxioms.ltb_spec in E.
  unfold SFltb in E. unfold SFeqb.
  destruct (Prim2SF x) as [sx|sx| |sx mx ex], (Prim2SF y) as [sy|sy| |sy my ey];
    simpl in *; try discriminate; rewrite ?Z.compare_refl, ?Pos.compare_refl;
    repeat match goal with s : bool |- _ => destruct s end; done.
Qed.

(** C3, as the code has it: the two [withdraw] methods accept a positive
    amount unless the funds are below it ([funds < amount] is false), which
    is [funds >= amount] whenever the funds are a number.  So for a positive
    amount and funds (the balance, for a checking account the balance plus
    the overdraft limit) that are not NaN, [withdraw] succeeds if and only
    if [funds >= amount]; on success the balance is the old one minus the
    amount and one [Withdrawal] transaction is appended. *)
Theorem withdraw_succeeds_iff_funds_cover
    (amount : float) (a : Account float) :
  PrimFloat.ltb 0 amount = true ->
  is_nan (available a) = false ->
  ((withdraw amount a).1.1 = true <->
   PrimFloat.leb amount (available a) = true) /\
  ((withdraw amount a).1.1 = true ->
   _balance (withdraw amount a).1.2 = (_balance a - amount)%float /\
   _transactions (withdraw amount a).1.2
   = _transactions a ++
     [{| type := "Withdrawal"; amount := amount;
         newBalance := (_balance a - amount)%float |}]).
Proof.
  intros Hpos Hnan. split.
  - rewrite withdraw_accepts. simpl.
    rewrite (ltb_true_leb _ _ Hpos). simpl.
    destruct (ltb_true_not_nan _ _ Hpos) as [_ Ha].
    assert (permits amount a = PrimFloat.leb amount (available a)) as ->; [|done].
    unfold permits, available in *. simpl.
    destruct (dynamic a); rewrite ltb_leb_dual by done; apply negb_involutive.
  - intros Hw. by rewrite withdraw_accepted.
Qed.

(** * Runs without rounding *)

(** ** The order of the numbers of binary64 *)

Lemma digits2_pos_bounds (m : positive) :
  2 ^ (Zpos (digits2_pos m) - 1) <= Zpos m < 2 ^ Zpos (digits2_pos m).
Proof.
  induction m as [m IH|m IH|]; simpl digits2_pos.
  - rewrite Pos2Z.inj_succ, Z.pow_succ_r by lia.
    replace (Z.succ (Zpos (digits2_pos m)) - 1)
      with (Z.succ (Zpos (digits2_pos m) - 1)) by lia.
    rewrite Z.pow_succ_r by lia. lia.
  - rewrite Pos2Z.inj_succ, Z.pow_succ_r by lia.
    replace (Z.succ (Zpos (digits2_pos m)) - 1)
      with (Z.succ (Zpos (digits2_pos m) - 1)) by lia.
    rewrite Z.pow_succ_r by lia. lia.
  - simpl. lia.
Qed.

(** A mantissa has at most 53 bits, and exactly 53 above the least
    exponent. *)
Lemma bounded_exponent (m : positive) (e : Z) :
  bounded prec emax m e = true ->
  -1074 <= e /\ Zpos m < 2 ^ 53 /\ (-1074 < e -> 2 ^ 52 <= Zpos m).
Proof.
  unfold bounded, canonical_mantissa, fexp, SpecFloat.emin, prec, emax.
  intros [E _]%andb_prop. apply Z.eqb_eq in E.
  pose proof (digits2_pos_bounds m) as [Hlo Hhi].
  split; [lia|]. split.
  - eapply Z.lt_le_trans; [exact Hhi|]. apply Z.pow_le_mono_r; lia.
  - intros He. replace (Zpos (digits2_pos m)) with 53 in Hlo by lia. exact Hlo.
Qed.

Lemma magnitude_compare (m1 m2 : positive) (e1 e2 : Z) :
  bounded prec emax m1 e1 = true -> bounded prec emax m2 e2 = true ->
  match e1 ?= e2 with
  | Lt => Lt
  | Gt => Gt
  | Eq => Pos.compare_cont Eq m1 m2
  end = (Zpos m1 * 2 ^ (e1 + 1074) ?= Zpos m2 * 2 ^ (e2 + 1074)).
Proof.
  intros (Hk1 & Hhi1 & Hlo1)%bounded_exponent (Hk2 & Hhi2 & Hlo2)%bounded_exponent.
  assert (Hlt : forall (a b : positive) (j k : Z),
    0 <= j -> j < k -> Zpos a < 2 ^ 53 -> 2 ^ 52 <= Zpos b ->
    Zpos a * 2 ^ j < Zpos b * 2 ^ k).
  { intros a b j k Hj Hjk Ha Hb.
    assert (0 < 2 ^ j) by (apply Z.pow_pos_nonneg; lia).
    assert (2 ^ (j + 1) <= 2 ^ k) by (apply Z.pow_le_mono_r; lia).
    rewrite Z.pow_add_r in * by lia. change (2 ^ 1) with 2 in *.
    change (2 ^ 53) with (2 * 2 ^ 52) in Ha. nia. }
  destruct (Z.compare_spec e1 e2) as [->|He|He].
  - assert (0 < 2 ^ (e2 + 1074)) by (apply Z.pow_pos_nonneg; lia).
    change (Pos.compare_cont Eq m1 m2) with (Zpos m1 ?= Zpos m2).
    symmetry. destruct (Z.compare_spec (Zpos m1) (Zpos m2)) as [E|E|E].
    + rewrite E. apply Z.compare_refl.
    + apply Z.compare_lt_iff. nia.
    + apply Z.compare_gt_iff. nia.
  - symmetry. apply Z.compare_lt_iff. apply Hlt; lia.
  - symmetry. apply Z.compare_gt_iff. apply Hlt; lia.
Qed.

Lemma magnitude_pos (m : positive) (e : Z) :
  bounded prec emax m e = true -> 0 < Zpos m * 2 ^ (e + 1074).
Proof.
  intros (Hk & _)%bounded_exponent.
  apply Z.mul_pos_pos; [lia|apply Z.pow_pos_nonneg; lia].
Qed.

(** [SFcompare] orders the numbers by their values. *)
Lemma SFcompare_value (x y : spec_float) (vx vy : Z) :
  valid_binary x = true -> valid_binary y = true ->
  SFvalue x = Some vx -> SFvalue y = Some vy ->
  SFcompare x y = Some (vx ?= vy).
Proof.
  intros Hx Hy Ex Ey.
  destruct x as [sx|sx| |sx mx ex], y as [sy|sy| |sy my ey];
    cbn [SFvalue] in Ex, Ey; simplify_eq;
    cbn [SFcompare SpecFloat.valid_binary] in *; try done.
  - apply magnitude_pos in Hy.
    destruct sy; cbn [cond_Zopp]; f_equal; symmetry.
    + apply Z.compare_gt_iff. lia.
    + apply Z.compare_lt_iff. lia.
  - apply magnitude_pos in Hx.
    destruct sx; cbn [cond_Zopp]; f_equal; symmetry.
    + apply Z.compare_lt_iff. lia.
    + apply Z.compare_gt_iff. lia.
  - pose proof (magnitude_compare mx my ex ey Hx Hy) as Hc.
    apply magnitude_pos in Hx, Hy.
    destruct sx, sy; cbn [cond_Zopp]; f_equal.
    + rewrite Z.compare_opp, (Z.compare_antisym (Zpos mx * _)), <- Hc.
      destruct (ex ?= ey); reflexivity.
    + symmetry. apply Z.compare_lt_iff. lia.
    + symmetry. apply Z.compare_gt_iff. lia.
    + exact Hc.
Qed.

Lemma ltb_value (x y : float) (vx vy : Z) :
  value x = Some vx -> value y = Some vy -> PrimFloat.ltb x y = (vx <? vy).
Proof.
  intros Ex Ey. rewrite FloatAxioms.ltb_spec. unfold SFltb, Z.ltb.
  by rewrite (SFcompare_value _ _ vx vy)
    by (done || apply FloatAxioms.Prim2SF_valid).
Qed.

Lemma leb_value (x y : float) (vx vy : Z) :
  value x = Some vx -> value y = Some vy -> PrimFloat.leb x y = (vx <=? vy).
Proof.
  intros Ex Ey. rewrite FloatAxioms.leb_spec. unfold SFleb, Z.leb.
  rewrite (SFcompare_value _ _ vx vy)
    by (done || apply FloatAxioms.Prim2SF_valid).
  by destruct (vx ?= vy).
Qed.

Lemma value_opp (x : float) (vx : Z) :
  value x = Some vx -> value (- x)%float = Some (- vx).
Proof.
  unfold value. rewrite FloatAxioms.opp_spec.
  destruct (Prim2SF x) as [s|s| |s m e]; cbn [SFvalue SFopp]; try done.
  - by intros [= <-].
  - intros [= <-]. f_equal. destruct s; cbn [negb cond_Zopp]; lia.
Qed.

Lemma value_zero : value 0%float = Some 0.
Proof. reflexivity. Qed.

Lemma value_one : value 1%float = Some (2 ^ 1074).
Proof. vm_compute. reflexivity. Qed.

(** The product of two numbers that are not negative is not negative. *)
Lemma value_mul_nonneg (x y : float) (vx vy vp : Z) :
  value x = Some vx -> value y = Some vy -> 0 <= vx -> 0 <= vy ->
  value (x * y)%float = Some vp -> 0 <= vp.
Proof.
  unfold value. rewrite FloatAxioms.mul_spec. unfold SF64mul.
  pose proof (FloatAxioms.Prim2SF_valid x) as Hx.
  pose proof (FloatAxioms.Prim2SF_valid y) as Hy.
  destruct (Prim2SF x) as [sx|sx| |sx mx ex], (Prim2SF y) as [sy|sy| |sy my ey];
    cbn [SFvalue SFmul SpecFloat.valid_binary] in *; try done;
    intros [= <-] [= <-] Hvx Hvy; try (intros [= <-]; lia).
  apply magnitude_pos in Hx, Hy.
  destruct sx; cbn [cond_Zopp] in Hvx; [lia|].
  destruct sy; cbn [cond_Zopp] in Hvy; [lia|].
  cbn [xorb]. unfold binary_round_aux.
  destruct (shr_fexp _ _ _ _ _) as [mrs' e'].
  destruct (shr_fexp _ _ _ _ _) as [mrs'' e''].
  destruct (shr_m mrs'') as [|m|m]; cbn [SFvalue]; try done.
  - intros [= <-]. lia.
  - destruct (Z.leb _ _); cbn [SFvalue]; [|done].
    intros [= <-]. cbn [cond_Zopp]. apply Z.mul_nonneg_nonneg; [lia|].
    apply Z.pow_nonneg. lia.
Qed.

Lemma exact_add_value (x y : float) :
  exact_add x y = true ->
  exists vx vy, value x = Some vx /\ value y = Some vy /\
    value (x + y)%float = Some (vx + vy).
Proof.
  unfold exact_add. destruct (value x) as [vx|], (value y) as [vy|]; try done.
  intros E%bool_decide_eq_true. eauto.
Qed.

Lemma exact_sub_value (x y : float) :
  exact_sub x y = true ->
  exists vx vy, value x = Some vx /\ value y = Some vy /\
    value (x - y)%float = Some (vx - vy).
Proof.
  unfold exact_sub. destruct (value x) as [vx|], (value y) as [vy|]; try done.
  intros E%bool_decide_eq_true. eauto.
Qed.

Lemma is_number_value (x : float) :
  is_number x = true -> exists vx, value x = Some vx.
Proof. unfold is_number. destruct (value x); [eauto|done]. Qed.

(** ** The limits of the three classes are kept *)

Lemma apply_op_limits (o : Op float) (a : Account float) :
  exact_call o a = true -> within_limits a -> within_limits (apply_op o a).
Proof.
  intros He Ha. pose proof Ha as (vb & Eb & Hlim).
  destruct o as [amount|amount|]; simpl in He |- *.
  - unfold deposit. destruct (d_le amount d_zero) eqn:E; [done|].
    apply exact_add_value in He as (vx & va & Ex & Ea & Es).
    assert (vx = vb) as -> by congruence.
    assert (E' : PrimFloat.leb amount 0 = false) by exact E.
    rewrite (leb_value _ _ va 0 Ea value_zero) in E'. apply Z.leb_gt in E'.
    exists (vb + va). split; [exact Es|]. simpl.
    destruct (dynamic a) as [|r|lim]; [lia| |].
    + destruct Hlim as [? ?]. split; [lia|done].
    + destruct Hlim as (vl & El & ?). exists vl. split; [done|lia].
  - apply andb_prop in He as [He Hl].
    apply exact_sub_value in He as (vx & va & Ex & Ea & Es).
    assert (vx = vb) as -> by congruence.
    unfold withdraw. destruct (dynamic a) as [|r|lim] eqn:Hdyn.
    1, 2: unfold Account_withdraw;
      (destruct (d_le amount d_zero); [done|]);
      (destruct (d_lt (_balance a) amount) eqn:E; [done|]);
      assert (E' : PrimFloat.ltb (_balance a) amount = false) by exact E;
      rewrite (ltb_value _ _ vb va Eb Ea) in E'; apply Z.ltb_ge in E';
      exists (vb - va); (split; [exact Es|]); simpl; rewrite Hdyn.
    + lia.
    + destruct Hlim as [? ?]. split; [lia|done].
    + unfold CheckingAccount_withdraw.
      destruct (d_le amount d_zero); [done|].
      destruct (d_lt (d_add (_balance a) lim) amount) eqn:E; [done|].
      destruct Hlim as (vl & El & Hfloor).
      apply exact_add_value in Hl as (vx & vy & Ex' & Ey & Ef).
      assert (vx = vb) as -> by congruence.
      assert (vy = vl) as -> by congruence.
      assert (E' : PrimFloat.ltb (_balance a + lim) amount = false) by exact E.
      rewrite (ltb_value _ _ (vb + vl) va Ef Ea) in E'. apply Z.ltb_ge in E'.
      exists (vb - va). split; [exact Es|]. simpl. rewrite Hdyn.
      exists vl. split; [done|lia].
  - unfold applyInterest. destruct (dynamic a) as [|r|lim] eqn:Hdyn; try done.
    destruct Hlim as (Hb & vr & Er & Hr).
    apply exact_add_value in He as (vx & vi & Ex & Ei & Es).
    assert (vx = vb) as -> by congruence.
    assert (0 <= vi)
      by (eapply (value_mul_nonneg _ _ vb vr); [..|exact Ei]; done || lia).
    exists (vb + vi). split; [exact Es|]. simpl. rewrite Hdyn.
    split; [lia|eauto].
Qed.

Lemma construct_limits ty n o (i r lim : float) (a : Account float) :
  construct ty n o i r lim = Some (Return a) ->
  is_number i = true -> is_number r = true -> is_number lim = true ->
  within_limits a.
Proof.
  intros Ea [vi Ei]%is_number_value [vr Er]%is_number_value
    [vl El]%is_number_value.
  revert Ea. unfold construct, new_SavingsAccount, new_CheckingAccount.
  repeat case_bool_decide; try discriminate; intros [= E]; revert E;
    destruct (new_Account n o i) as [a0|e] eqn:E0; try discriminate;
    apply new_Account_Return in E0 as [-> Hi]; simpl; unfold throw_if;
    assert (Hi' : PrimFloat.ltb i 0 = false) by exact Hi;
    rewrite (ltb_value _ _ vi 0 Ei value_zero) in Hi'; apply Z.ltb_ge in Hi'.
  - destruct (PrimFloat.ltb r 0) eqn:R0; [discriminate|].
    destruct (PrimFloat.ltb 1 r) eqn:R1; [discriminate|].
    rewrite (ltb_value _ _ vr 0 Er value_zero) in R0.
    rewrite (ltb_value _ _ (2 ^ 1074) vr value_one Er) in R1.
    apply Z.ltb_ge in R0, R1.
    intros [= <-]. exists vi. split; [done|]. simpl. split; [done|].
    exists vr. done.
  - destruct (PrimFloat.ltb lim 0) eqn:L0; [discriminate|].
    rewrite (ltb_value _ _ vl 0 El value_zero) in L0. apply Z.ltb_ge in L0.
    intros [= <-]. exists vi. split; [done|]. simpl.
    exists vl. split; [done|lia].
Qed.

Section Stores.
Context {D : Type} `{Double D}.
Implicit Types (s : State D) (a b : Account D) (amount : D) (l : loc).

(** What [transferFunds] leaves behind: the state as it was, or a
    withdrawal on the source and a deposit on the destination, two
    different objects. *)
Lemma transferFunds_state f t amount s :
  wf s ->
  (transferFunds f t amount s).1.2 = s \/
  exists lf lt a b,
    getAccount f s = Some lf /\ getAccount t s = Some lt /\ lf <> lt /\
    heap s !! lf = Some a /\ heap s !! lt = Some b /\
    (transferFunds f t amount s).1.2
    = store lt (apply_op (op_deposit amount) b)
        (store lf (apply_op (op_withdraw amount) a) s).
Proof.
  intros Hwf.
  destruct (getAccount f s) as [lf|] eqn:Ef.
  2: { left. unfold transferFunds. by rewrite Ef. }
  destruct (getAccount t s) as [lt|] eqn:Et.
  2: { left. unfold transferFunds. by rewrite Ef, Et. }
  destruct (decide (f = t)) as [Heq|Hne].
  { left. unfold transferFunds.
    by rewrite Ef, Et, bool_decide_eq_true_2 by done. }
  destruct (d_le amount d_zero) eqn:Hpos.
  { left. unfold transferFunds.
    by rewrite Ef, Et, bool_decide_eq_false_2, Hpos by done. }
  destruct (wf_distinct s f t lf lt Hwf Ef Et Hne) as (Hl & a & b & Ea & Eb).
  rewrite (transferFunds_run f t amount s lf lt a) by done.
  destruct ((withdraw amount a).1.1) eqn:Ew; [|by left]. cbv zeta.
  right. exists lf, lt, a, b. split_and!; try done.
  assert (heap (store lf (withdraw amount a).1.2 s) !! lt = Some b) as ->; [|done].
  simpl. by rewrite list_lookup_insert_ne.
Qed.

Lemma run_cons (c : Command D) cs s : run (c :: cs) s = run cs (step c s).
Proof. done. Qed.

End Stores.

Lemma store_limits l0 (a0 : Account float) (s : State float) :
  within_limits a0 ->
  (forall l a, heap s !! l = Some a -> within_limits a) ->
  forall l a, heap (store l0 a0 s) !! l = Some a -> within_limits a.
Proof.
  intros H0 Hs l a. simpl.
  intros [(_ & <- & _)|[_ E]]%list_lookup_insert_Some; [done|by eapply Hs].
Qed.

Lemma on_account_limits n (o : Op float) (s : State float) :
  exact_on n o s = true ->
  (forall l a, heap s !! l = Some a -> within_limits a) ->
  forall l a, heap (on_account n o s) !! l = Some a -> within_limits a.
Proof.
  unfold exact_on, on_account. intros He Hs.
  destruct (getAccount n s) as [l0|]; [|done].
  destruct (heap s !! l0) as [a0|] eqn:E0; [|done].
  apply store_limits; [|done]. apply apply_op_limits; [done|by eapply Hs].
Qed.

Lemma step_limits (c : Command float) (s : State float) :
  wf s -> exact_step c s = true ->
  (forall l a, heap s !! l = Some a -> within_limits a) ->
  forall l a, heap (step c s) !! l = Some a -> within_limits a.
Proof.
  intros Hwf He Hs.
  destruct c as [name address|cid ty i r lim|n amount|n amount|n|f t amount];
    simpl in He |- *.
  - destruct (addCustomer_cases name address s) as (-> & _). apply Hs.
  - apply andb_prop in He as [[Hi Hr]%andb_prop Hl].
    destruct (createAccount_cases cid ty i r lim s)
      as [(-> & _)|(cu & cu' & a & _ & Ea & -> & _)]; [apply Hs|].
    intros l a' [[_ E]|[_ <-]]%lookup_snoc_Some; [by eapply Hs|].
    by eapply construct_limits.
  - by apply on_account_limits.
  - by apply on_account_limits.
  - by apply on_account_limits.
  - apply andb_prop in He as [Hf Ht].
    destruct (transferFunds_state f t amount s Hwf)
      as [->|(lf & lt & a & b & Ef & Et & Hl & Ea & Eb & ->)]; [apply Hs|].
    unfold exact_on in Hf, Ht. rewrite Ef, Ea in Hf. rewrite Et, Eb in Ht.
    apply store_limits; [apply apply_op_limits; [done|by eapply Hs]|].
    apply store_limits; [apply apply_op_limits; [done|by eapply Hs]|done].
Qed.

Lemma run_limits (cs : list (Command float)) (s : State float) :
  wf s -> exact_run cs s = true ->
  (forall l a, heap s !! l = Some a -> within_limits a) ->
  forall l a, heap (run cs s) !! l = Some a -> within_limits a.
Proof.
  revert s. induction cs as [|c cs IH]; intros s Hwf He Hs; [done|].
  simpl in He. apply andb_prop in He as [Hc He]. rewrite run_cons.
  apply IH; [by apply wf_step|done|by apply step_limits].
Qed.

Lemma reachable_limits (name : string) (cs : list (Command float)) l a :
  exact_run cs (new_Bank name) = true ->
  heap (run cs (new_Bank name)) !! l = Some a -> within_limits a.
Proof.
  intros He. apply run_limits; [apply wf_new_Bank|done|].
  intros l' a'. simpl. by rewrite lookup_nil.
Qed.

(** C4, where the run comes without rounding: in every state the clients
    reach with [addCustomer], [createAccount], [deposit], [withdraw],
    [applyInterest] and [transferFunds], each call exact in the state it is
    made in (the constructors refuse a negative initial balance and a
    negative overdraft limit), the balance of a checking account is a
    number of at least minus its overdraft limit, and a withdrawal that is
    itself exact and would bring the balance below that is rejected and
    leaves the account as it is. *)
Theorem checking_balance_stays_above_floor
    (name : string) (cs : list (Command float)) l (a : Account float)
    (lim : float) :
  exact_run cs (new_Bank name) = true ->
  heap (run cs (new_Bank name)) !! l = Some a ->
  dynamic a = IsCheckingAccount lim ->
  is_number (_balance a) = true /\
  PrimFloat.leb (- lim) (_balance a) = true /\
  forall amount,
    exact_call (op_withdraw amount) a = true ->
    PrimFloat.ltb (_balance a - amount) (- lim) = true ->
    exists out, withdraw amount a = (false, a, out).
Proof.
  intros He Ea Hdyn.
  destruct (reachable_limits name cs l a He Ea) as (vb & Eb & Hlim).
  rewrite Hdyn in Hlim. destruct Hlim as (vl & El & Hfloor).
  split_and!.
  - unfold is_number. by rewrite Eb.
  - rewrite (leb_value _ _ (- vl) vb (value_opp _ _ El) Eb).
    by apply Z.leb_le.
  - intros amount Hex Hlow. simpl in Hex. rewrite Hdyn in Hex.
    apply andb_prop in Hex as [Hsub Hadd].
    apply exact_sub_value in Hsub as (vx & va & Ex & Eam & Es).
    apply exact_add_value in Hadd as (vx' & vy & Ex' & Ey & Ef).
    assert (vx = vb) as -> by congruence.
    assert (vx' = vb) as -> by congruence.
    assert (vy = vl) as -> by congruence.
    rewrite (ltb_value _ _ (vb - va) (- vl) Es (value_opp _ _ El)) in Hlow.
    apply Z.ltb_lt in Hlow.
    unfold withdraw. rewrite Hdyn. unfold CheckingAccount_withdraw.
    destruct (d_le amount d_zero); [by eexists|].
    destruct (d_lt (d_add (_balance a) lim) amount) eqn:E; [by eexists|].
    assert (E' : PrimFloat.ltb (_balance a + lim) amount = false) by exact E.
    rewrite (ltb_value _ _ (vb + vl) va Ef Eam) in E'. apply Z.ltb_ge in E'.
    lia.
Qed.

(** * The program of [main] *)

Example main_balances :
  getBalance <$> heap (run operated (new_Bank Global_Bank))
  = [1167.25; -100; 2500; 100]%float.
Proof. vm_compute. reflexivity. Qed.

Example main_first_transfer :
  (transferFunds "ACC100001" "ACC100002" 150%float
     (run operated (new_Bank Global_Bank))).2
  = [withdrawal_denied 200 (-100) 150; transfer_failed]%float.
Proof. vm_compute. reflexivity. Qed.

(** * Where the code departs from the specification *)

Lemma alice_savings_created : created alice_savings 1000%float.
Proof.
  exists "ACC100000", "Alice Smith". right. left. by exists 0.015%float.
Qed.

(** C1 as stated fails: Alice's savings account of [main], opened with
    1000, holds 1167.25 after the three calls of [main], and the replay of
    its history from 0 gives 167.25. *)
Lemma balance_does_not_replay_from_zero :
  ~ @balance_replays_from_zero float binary64.
Proof.
  intros Hc.
  specialize (Hc alice_savings 1000%float alice_ops eq_refl alice_savings_created).
  apply (f_equal (PrimFloat.ltb 1000)) in Hc. vm_compute in Hc. discriminate.
Qed.

Lemma balance_replays_history_from_initial_balance_witness :
  created alice_savings 1000%float /\
  _balance (run_ops alice_ops alice_savings)
  = replay (_transactions (run_ops alice_ops alice_savings)) 1000%float.
Proof.
  split; [exact alice_savings_created|].
  apply (balance_replays_history_from_initial_balance
           alice_savings 1000%float alice_ops).
  exists "ACC100000", "Alice Smith". right. left. exists 0.015%float.
  vm_compute. reflexivity.
Defined.

(** C3 as stated fails where the balance is NaN, which no test of the code
    excludes: the constructor accepts NaN as initial balance (NaN < 0 is
    false), and a balance of +infinity, reached by a deposit, turns into
    NaN when +infinity is withdrawn.  From a NaN balance [withdraw] returns
    [true] for the positive amount 50 although [balance >= 50] is false. *)
Lemma withdraw_from_nan_balance_succeeds :
  (exists a : Account float,
     new_SavingsAccount "ACC100000" "Alice Smith" nan 0.015%float = Return a /\
     PrimFloat.ltb 0 50 = true /\
     (withdraw 50%float a).1.1 = true /\
     PrimFloat.leb 50 (_balance a) = false) /\
  (let a := run_ops [op_deposit infinity; op_withdraw infinity] alice_savings in
   is_nan (_balance a) = true /\
   (withdraw 50%float a).1.1 = true /\
   PrimFloat.leb 50 (_balance a) = false).
Proof. split; [eexists|]; vm_compute; auto. Qed.

Lemma withdraw_succeeds_iff_funds_cover_witness :
  (withdraw 50%float alice_savings).1.1 = true /\
  _balance (withdraw 50%float alice_savings).1.2 = 950%float.
Proof.
  destruct (withdraw_succeeds_iff_funds_cover 50%float alice_savings)
    as [Hiff Hok]; [reflexivity|reflexivity|].
  assert (Hw : (withdraw 50%float alice_savings).1.1 = true)
    by (apply Hiff; reflexivity).
  split; [exact Hw|]. destruct (Hok Hw) as [-> _]. reflexivity.
Defined.

(** C4 as stated fails under binary64 rounding.  A checking account is
    opened with 0.1 and an overdraft limit of 0.2.  [withdraw] of
    0.30000000000000004 is accepted, since [0.1 + 0.2] rounds to that very
    number, and leaves [0.1 - 0.30000000000000004 = -0.20000000000000004],
    which is below -0.2. *)
Lemma checking_balance_falls_below_floor :
  let s := run [call_addCustomer "Alice Smith" "123 Main St, Anytown";
                call_createAccount "C1000" "checking" 0.1 0 0.2]%float
             (new_Bank Global_Bank) in
  exists a : Account float,
    heap s !! 0%nat = Some a /\
    _balance a = 0.1%float /\ dynamic a = IsCheckingAccount 0.2%float /\
    PrimFloat.leb 0 0.1 = true /\ PrimFloat.leb 0 0.2 = true /\
    (withdraw 0.30000000000000004%float a).1.1 = true /\
    PrimFloat.ltb (_balance (withdraw 0.30000000000000004%float a).1.2)
      (0 - 0.2) = true.
Proof. eexists. vm_compute. split_and!; reflexivity. Qed.

(** C8 as stated fails for a rate that is not a number: NaN is not between
    0 and 1, both tests of the constructor are false for it, and in the
    state [main] sets up the savings account is created and registered. *)
Lemma createAccount_accepts_nan_interest_rate :
  let s := run operated (new_Bank Global_Bank) in
  let r := createAccount "C1000" "savings" 1000%float nan 0%float s in
  PrimFloat.leb 0 nan = false /\ PrimFloat.leb nan 1 = false /\
  (exists customer, getCustomer "C1000" s = Some customer) /\
  r.1.1 = Return (Some 4%nat) /\
  getAccount "ACC100004" s = None /\
  getAccount "ACC100004" r.1.2 = Some 4%nat /\
  dynamic <$> heap r.1.2 !! 4%nat = Some (IsSavingsAccount nan).
Proof.
  vm_compute. split_and!; try reflexivity. by eexists.
Qed.

Lemma checking_balance_stays_above_floor_witness :
  exists a : Account float,
    heap (run operated (new_Bank Global_Bank)) !! 1%nat = Some a /\
    _balance a = (-100)%float /\
    PrimFloat.leb (- 200) (_balance a) = true /\
    (withdraw 300%float a).1.1 = false.
Proof.
  eexists. split; [vm_compute; reflexivity|]. split; [reflexivity|].
  match goal with |- PrimFloat.leb _ (_balance ?a) = true /\ _ =>
    destruct (checking_balance_stays_above_floor
                Global_Bank operated 1%nat a 200%float)
      as (_ & Hfloor & Hrej);
      [vm_compute; reflexivity|vm_compute; reflexivity|reflexivity|]
  end.
  split; [exact Hfloor|].
  destruct (Hrej 300%float) as [out ->];
    [vm_compute; reflexivity|vm_compute; reflexivity|reflexivity].
Defined.

(** C5 as stated fails: [transferFunds] returns a [bool].  In the state
    [main] sets up, the transfers of 100 and of 150 from Bob's savings
    account to Alice's both return [true] and leave different balances, so
    the balances are not a function of the value returned. *)
Lemma transfer_returns_no_balances :
  ~ @transfer_returns_balances float binary64.
Proof.
  intros (fromBalance & toBalance & Hc).
  pose proof (Hc Global_Bank opened "ACC100002" "ACC100000" 100%float
                2%nat 0%nat) as H1.
  pose proof (Hc Global_Bank opened "ACC100002" "ACC100000" 150%float
                2%nat 0%nat) as H2.
  edestruct H1 as [E1 _]; [vm_compute; reflexivity..|].
  edestruct H2 as [E2 _]; [vm_compute; reflexivity..|].
  vm_compute in E1, E2. rewrite E1 in E2.
  apply (f_equal (PrimFloat.ltb 2375)) in E2. vm_compute in E2. discriminate.
Qed.

Lemma successful_transfer_returns_true_witness :
  let r := transferFunds "ACC100002" "ACC100000" 150%float
             (run opened (new_Bank Global_Bank)) in
  r.1.1 = true /\
  getBalance <$> heap r.1.2 !! 2%nat = Some 2350%float /\
  getBalance <$> heap r.1.2 !! 0%nat = Some 1150%float.
Proof.
  edestruct (successful_transfer_returns_true Global_Bank opened
               "ACC100002" "ACC100000" 150%float 2%nat 0%nat)
    as (E1 & E2 & E3 & _);
    [vm_compute; reflexivity|vm_compute; reflexivity|discriminate|
     reflexivity|vm_compute; reflexivity|vm_compute; reflexivity|
     reflexivity|].
  split_and!; [exact E1|exact E2|exact E3].
Defined.

(** C9 as stated fails under binary64 rounding.  With 1e16 in the source
    and 1 in the destination, the transfer of 1 succeeds; [1e16 - 1] rounds
    back to 1e16, so the source keeps its balance while the destination
    rises to 2, and the two balances sum to more than before. *)
Lemma transfer_changes_the_sum :
  let s := run [call_addCustomer "Alice Smith" "123 Main St, Anytown";
                call_createAccount "C1000" "savings" 1e16 0.01 0;
                call_createAccount "C1000" "savings" 1 0.01 0]%float
             (new_Bank Global_Bank) in
  let r := transferFunds "ACC100000" "ACC100001" 1%float s in
  r.1.1 = true /\
  getBalance <$> heap s = [1e16; 1]%float /\
  getBalance <$> heap r.1.2 = [1e16; 2]%float /\
  PrimFloat.ltb (1e16 + 1) (1e16 + 2) = true.
Proof. vm_compute. split_and!; reflexivity. Qed.

Lemma successful_transfer_moves_amount_witness :
  let s := run opened (new_Bank Global_Bank) in
  let r := transferFunds "ACC100002" "ACC100000" 150%float s in
  r.1.1 = true /\
  getBalance <$> heap r.1.2 = [1150; 500; 2350; 100]%float /\
  bank r.1.2 = bank s.
Proof.
  intros s r.
  assert (Hok : r.1.1 = true) by (vm_compute; reflexivity).
  destruct (successful_transfer_moves_amount Global_Bank opened
              "ACC100002" "ACC100000" 150%float Hok)
    as (lf & lt & a & b & _ & _ & _ & _ & _ & _ & _ & _ & Hbank & _).
  split_and!; [exact Hok|vm_compute; reflexivity|exact Hbank].
Defined.

(** * The remaining claims on the program of [main] *)

Lemma failed_withdrawal_leaves_destination_untouched_witness :
  let s := run operated (new_Bank Global_Bank) in
  transferFunds "ACC100003" "ACC100000" 10000%float s
    = (false, s, [withdrawal_denied 500 100 10000; transfer_failed]%float) /\
  heap (transferFunds "ACC100003" "ACC100000" 10000%float s).1.2 !! 0%nat
  = heap s !! 0%nat.
Proof.
  intros s.
  destruct (failed_withdrawal_leaves_destination_untouched
              "ACC100003" "ACC100000" 10000%float s 3%nat 0%nat bob_checking)
    as [E1 E2];
    [vm_compute; reflexivity|vm_compute; reflexivity|discriminate|
     reflexivity|vm_compute; reflexivity|reflexivity|].
  split; [exact E1|exact E2].
Defined.

Lemma transferFunds_checks_in_order_witness :
  let s := run operated (new_Bank Global_Bank) in
  transferFunds "ACC100009" "ACC100008" (-5)%float s
    = (false, s, [source_not_found "ACC100009"]) /\
  transferFunds "ACC100000" "ACC100008" (-5)%float s
    = (false, s, [destination_not_found "ACC100008"]) /\
  transferFunds "ACC100000" "ACC100000" (-5)%float s
    = (false, s, [same_account]) /\
  transferFunds "ACC100000" "ACC100001" (-5)%float s
    = (false, s, [transfer_not_positive]).
Proof.
  intros s. split_and!.
  - apply (transferFunds_checks_in_order "ACC100009" "ACC100008" (-5)%float s).
    vm_compute. reflexivity.
  - apply (transferFunds_checks_in_order "ACC100000" "ACC100008" (-5)%float s);
      vm_compute; eauto.
  - apply (transferFunds_checks_in_order "ACC100000" "ACC100000" (-5)%float s);
      vm_compute; eauto.
  - apply (transferFunds_checks_in_order "ACC100000" "ACC100001" (-5)%float s);
      [vm_compute; eauto|vm_compute; eauto|discriminate|reflexivity].
Defined.

Lemma rejected_call_leaves_account_unchanged_witness :
  (deposit (-5)%float bob_checking).1.2 = bob_checking /\
  (withdraw 700%float bob_checking).1.2 = bob_checking /\
  length (_transactions (withdraw 700%float bob_checking).1.2) = 0%nat.
Proof.
  destruct (rejected_call_leaves_account_unchanged (-5)%float bob_checking)
    as (_ & _ & Hd & _).
  destruct (rejected_call_leaves_account_unchanged 700%float bob_checking)
    as (_ & _ & _ & Hw).
  destruct (Hd eq_refl) as (Ed & _). destruct (Hw eq_refl) as (Ew & _ & El).
  split_and!; [exact Ed|exact Ew|exact El].
Defined.

Lemma createAccount_rejects_interest_rate_witness :
  let s := run operated (new_Bank Global_Bank) in
  let r := createAccount "C1000" "savings" 1000%float 1.5%float 0%float s in
  r.1.1 = Throw (invalid_argument
    "Interest rate must be between 0 and 1 (e.g., 0.01 for 1%).") /\
  b_accounts (bank r.1.2) = b_accounts (bank s) /\
  _customers (bank r.1.2) = _customers (bank s) /\
  heap r.1.2 = heap s.
Proof.
  intros s r.
  destruct (getCustomer "C1000" s) as [alice|] eqn:Ealice;
    [|vm_compute in Ealice; discriminate].
  destruct (createAccount_rejects_interest_rate "C1000" alice
              1000%float 1.5%float 0%float s Ealice)
    as (_ & Ea & Ec & Eh & Ewhat); [vm_compute; reflexivity|].
  split_and!; [|exact Ea|exact Ec|exact Eh].
  apply Ewhat; [|reflexivity].
  vm_compute in Ealice. injection Ealice as <-. reflexivity.
Defined.

Lemma createAccount_invalid_type_consumes_number_witness :
  let s := run operated (new_Bank Global_Bank) in
  let r := createAccount "C1000" "gold" 1000%float 0.01%float 0%float s in
  r.1.1 = Return None /\
  _nextAccountNumber (bank r.1.2) = 100005 /\
  unassigned 100004
    (run [call_createAccount "C1001" "savings" 10 0.01 0]%float r.1.2).
Proof.
  intros s r.
  destruct (getCustomer "C1000" s) as [alice|] eqn:Ealice;
    [|vm_compute in Ealice; discriminate].
  destruct (createAccount_invalid_type_consumes_number Global_Bank operated
              "C1000" alice "gold" 1000%float 0.01%float 0%float Ealice)
    as (Er & _ & _ & _ & _ & En & Hun); [discriminate|discriminate|].
  split_and!; [exact Er|exact En|].
  exact (Hun [call_createAccount "C1001" "savings" 10 0.01 0]%float).
Defined.

(** * The registry in reachable states *)

Section RegistryFacts.
Context {D : Type} `{Double D}.
Implicit Types (s : State D) (a b : Account D) (amount : D) (l : loc).

Lemma customer_id_inj (n m : Z) :
  "C" +:+ to_string n = "C" +:+ to_string m -> n = m.
Proof. simpl. intros E. injection E. apply pretty_Z_inj. Qed.

Lemma is_empty_false (x : string) : x <> "" -> is_empty x = false.
Proof. intros. unfold is_empty. by apply bool_decide_eq_false_2. Qed.

Lemma is_empty_true (x : string) : is_empty x = true -> x = "".
Proof. unfold is_empty. by intros ?%bool_decide_eq_true_1. Qed.

Lemma addCustomer_Return name address s :
  name <> "" -> address <> "" ->
  let customerId := "C" +:+ to_string (_nextCustomerId (bank s)) in
  addCustomer name address s =
    (Return customerId,
     set_customers
       (<[customerId := {| _customerId := customerId; c_name := name;
                           _address := address; c_accounts := ∅ |}]>
          (_customers (bank s)))
       (set_nextCustomerId (_nextCustomerId (bank s) + 1) s),
     [customer_added name customerId]).
Proof.
  intros Hn Ha. unfold addCustomer, new_Customer, throw_if.
  rewrite (is_empty_false name), (is_empty_false address) by done.
  by rewrite is_empty_false.
Qed.

Lemma addCustomer_Throw name address s :
  name = "" \/ address = "" ->
  exists what,
    addCustomer name address s =
      (Throw (invalid_argument what),
       set_nextCustomerId (_nextCustomerId (bank s) + 1) s, []).
Proof.
  intros Hna. unfold addCustomer, new_Customer, throw_if.
  rewrite (is_empty_false ("C" +:+ _)) by done.
  destruct (is_empty name) eqn:En; [by eexists|].
  destruct (is_empty address) eqn:Ea; [by eexists|].
  destruct Hna as [->| ->]; by vm_compute in En, Ea.
Qed.

Lemma createAccount_Return cid ty (i r lim : D) s customer a :
  getCustomer cid s = Some customer ->
  construct ty ("ACC" +:+ to_string (_nextAccountNumber (bank s)))
    (getName customer) i r lim = Some (Return a) ->
  createAccount cid ty i r lim s =
    (Return (Some (length (heap s))), register cid customer a s,
     [account_added (_accountNumber a) (c_name customer);
      account_created ty (c_name customer) cid (_accountNumber a)]).
Proof.
  intros Ec Ea. unfold createAccount. rewrite Ec, Ea.
  apply construct_Return in Ea as (Hn & _).
  unfold make_shared, addAccount. simpl.
  rewrite list_lookup_middle by done. simpl. unfold getAccountNumber, register.
  by rewrite Hn.
Qed.

(** The three ways [createAccount] ends. *)
Lemma createAccount_state cid ty (i r lim : D) s :
  let s' := (createAccount cid ty i r lim s).1.2 in
  s' = s \/
  s' = set_nextAccountNumber (_nextAccountNumber (bank s) + 1) s \/
  exists customer a,
    getCustomer cid s = Some customer /\
    construct ty ("ACC" +:+ to_string (_nextAccountNumber (bank s)))
      (getName customer) i r lim = Some (Return a) /\
    s' = register cid customer a s.
Proof.
  destruct (getCustomer cid s) as [customer|] eqn:Ec.
  2: { left. unfold createAccount. by rewrite Ec. }
  destruct (construct ty ("ACC" +:+ to_string (_nextAccountNumber (bank s)))
              (getName customer) i r lim) as [[a|e]|] eqn:Ea.
  - right. right. exists customer, a.
    by rewrite (createAccount_Return _ _ _ _ _ _ customer a).
  - right. left. unfold createAccount. by rewrite Ec, Ea.
  - right. left. unfold createAccount. by rewrite Ec, Ea.
Qed.

Lemma apply_op_ownerName (o : Op D) a :
  _ownerName (apply_op o a) = _ownerName a.
Proof. by destruct (apply_op_cases o a) as [->|(?&?&?&->&_)]. Qed.

Lemma run_ops_ownerName (ops : list (Op D)) a :
  _ownerName (run_ops ops a) = _ownerName a.
Proof.
  revert a. induction ops as [|o ops IH]; intros a; [done|].
  by rewrite run_ops_cons, IH, apply_op_ownerName.
Qed.

Lemma sound_new_Bank name : sound (new_Bank (D:=D) name).
Proof.
  split; [apply wf_new_Bank|..]; unfold getAccount, getCustomer; simpl;
    intros *; by rewrite ?lookup_empty.
Qed.

Lemma sound_calls s s' : calls s s' -> sound s -> sound s'.
Proof.
  intros Hc [Hwf Hreg Hcu Hown]. pose proof (calls_bank _ _ Hc) as Eb.
  split; [by eapply wf_calls|..]; unfold getAccount, getCustomer in *;
    rewrite ?Eb.
  - intros l a' E.
    destruct (calls_lookup s s' l Hc) as [[_ ?]|(b & ops & E1 & E2)];
      [congruence|].
    assert (a' = run_ops ops b) as -> by congruence.
    rewrite run_ops_accountNumber. by apply Hreg.
  - done.
  - intros k l (cid & c & a & Ec & Ek & Ea & Ho & Hu)%Hown.
    destruct (calls_lookup s s' l Hc) as [[? _]|(b & ops & E1 & E2)];
      [congruence|].
    assert (b = a) as -> by congruence.
    exists cid, c, (run_ops ops a). by rewrite run_ops_ownerName.
Qed.

Lemma sound_counter n s :
  sound s -> sound (set_nextCustomerId (_nextCustomerId (bank s) + n) s) \/ n < 0.
Proof.
  intros [Hwf Hreg Hcu Hown]. destruct (decide (n < 0)); [by right|left].
  split; try done.
  - by destruct Hwf.
  - intros cid c Ec. destruct (Hcu cid c Ec) as (? & ? & ? & m & ? & ?).
    split_and!; try done. exists m. simpl. split; [done|lia].
Qed.

Lemma sound_addCustomer name address s :
  sound s -> sound (addCustomer name address s).1.2.
Proof.
  intros Hs.
  destruct (decide (name = "")) as [Hn|Hn];
    [|destruct (decide (address = "")) as [Ha|Ha]].
  1, 2: destruct (addCustomer_Throw name address s) as [what ->]; [by auto|];
    by destruct (sound_counter 1 s Hs).
  rewrite addCustomer_Return by done. simpl.
  destruct Hs as [Hwf Hreg Hcu Hown].
  set (cid := "C" +:+ to_string (_nextCustomerId (bank s))).
  assert (Hfresh : _customers (bank s) !! cid = None).
  { apply eq_None_not_Some. intros [c Ec].
    destruct (Hcu cid c Ec) as (_ & _ & _ & m & Em & Hm).
    apply customer_id_inj in Em. lia. }
  split; unfold getAccount, getCustomer in *; simpl.
  - destruct Hwf as [Hacc Hc Hnum]. split; simpl; try done.
    intros cid' c' k l [[<- <-]|[_ E]]%lookup_insert_Some; [|by eauto].
    simpl. by rewrite lookup_empty.
  - done.
  - intros cid' c' [[<- <-]|[_ E]]%lookup_insert_Some.
    + simpl. split_and!; try done. eexists. split; [done|lia].
    + destruct (Hcu cid' c' E) as (? & ? & ? & m & ? & ?).
      split_and!; try done. exists m. split; [done|lia].
  - intros k l (cid0 & c & a & Ec & Ek & Ea & Ho & Hu)%Hown.
    exists cid0, c, a. split_and!; try done.
    + rewrite lookup_insert_ne; [done|]. intros <-. congruence.
    + intros cid' c' [[<- <-]|[_ E]]%lookup_insert_Some; [|by eauto].
      unfold Customer_getAccount. simpl. rewrite lookup_empty.
      by intros [? ?].
Qed.

Lemma sound_register cid customer a s :
  sound s ->
  getCustomer cid s = Some customer ->
  _accountNumber a = "ACC" +:+ to_string (_nextAccountNumber (bank s)) ->
  _ownerName a = c_name customer ->
  sound (register cid customer a s).
Proof.
  intros [Hwf Hreg Hcu Hown] Ec Hnum Howner.
  pose proof (wf_fresh_number s Hwf) as Hfresh. rewrite <- Hnum in Hfresh.
  assert (Hnone : forall cid' c', getCustomer cid' s = Some c' ->
            c_accounts c' !! _accountNumber a = None).
  { intros cid' c' Ec'. apply eq_None_not_Some. intros [l El].
    destruct Hwf as [_ Hc _]. rewrite (Hc _ _ _ _ Ec' El) in Hfresh. done. }
  split; unfold getAccount, getCustomer, Customer_getAccount in *; simpl.
  - destruct Hwf as [Ha Hc Hn]. split; simpl.
    + intros k l [[<- <-]|[_ E]]%lookup_insert_Some.
      * exists a. by rewrite list_lookup_middle.
      * destruct (Ha k l E) as (a0 & E0 & ?). exists a0.
        rewrite lookup_app_l by (by eapply lookup_lt_Some). done.
    + intros cid' c k l [[<- <-]|[_ E]]%lookup_insert_Some; simpl.
      * intros [[<- <-]|[Hk E]]%lookup_insert_Some.
        -- by rewrite lookup_insert_eq.
        -- rewrite lookup_insert_ne by done. by eapply Hc.
      * intros Ek. pose proof (Hc _ _ _ _ E Ek) as E'.
        rewrite lookup_insert_ne; [done|]. intros <-. congruence.
    + intros l a' [[_ E]|[_ <-]]%lookup_snoc_Some.
      * destruct (Hn l a' E) as (n & ? & ?). exists n. split; [done|lia].
      * exists (_nextAccountNumber (bank s)). split; [done|lia].
  - intros l a' [[Hl E]|[-> <-]]%lookup_snoc_Some.
    + rewrite lookup_insert_ne; [by apply Hreg|].
      intros E'. rewrite E' in Hfresh. by rewrite (Hreg l a' E) in Hfresh.
    + by rewrite lookup_insert_eq.
  - intros cid' c' [[<- <-]|[_ E]]%lookup_insert_Some; [simpl|by apply Hcu].
    by apply Hcu.
  - intros k l [[<- <-]|[Hk E]]%lookup_insert_Some.
    + eexists cid, _, a. split; [by rewrite lookup_insert_eq|]. simpl.
      rewrite lookup_insert_eq, list_lookup_middle by done.
      split_and!; try done.
      intros cid' c' [[<- <-]|[Hne E]]%lookup_insert_Some; [done|].
      rewrite (Hnone cid' c' E). by intros [? ?].
    + destruct (Hown k l E) as (cid0 & c & a0 & Ec0 & Ek & Ea & Ho & Hu).
      assert (Ha' : (heap s ++ [a]) !! l = Some a0).
      { rewrite lookup_app_l by (by eapply lookup_lt_Some). done. }
      destruct (decide (cid0 = cid)) as [->|Hne].
      * assert (c = customer) as -> by congruence.
        eexists cid, _, a0. split; [by rewrite lookup_insert_eq|]. simpl.
        rewrite lookup_insert_ne by done. split_and!; try done.
        intros cid' c' [[<- <-]|[Hne E']]%lookup_insert_Some; [done|].
        by apply Hu.
      * exists cid0, c, a0. rewrite lookup_insert_ne by done.
        split_and!; try done.
        intros cid' c' [[<- <-]|[Hne' E']]%lookup_insert_Some; [|by apply Hu].
        simpl. rewrite lookup_insert_ne by done. by apply Hu.
Qed.

Lemma construct_ownerName ty n o (i r lim : D) a :
  construct ty n o i r lim = Some (Return a) -> _ownerName a = o.
Proof.
  unfold construct, new_SavingsAccount, new_CheckingAccount.
  repeat case_bool_decide; try discriminate; intros [= E]; revert E;
    destruct (new_Account n o i) as [a0|e] eqn:E0; try discriminate;
    apply new_Account_Return in E0 as [-> Hi]; simpl; unfold throw_if.
  - destruct (d_lt r d_zero || d_lt d_one r); try discriminate.
    by intros [= <-].
  - destruct (d_lt lim d_zero); try discriminate. by intros [= <-].
Qed.

Lemma sound_createAccount cid ty (i r lim : D) s :
  sound s -> sound (createAccount cid ty i r lim s).1.2.
Proof.
  intros Hs.
  destruct (createAccount_state cid ty i r lim s)
    as [->|[->|(customer & a & Ec & Ea & ->)]]; [done| |].
  - destruct Hs as [Hwf Hreg Hcu Hown]. split; try done.
    destruct Hwf as [Ha Hc Hn]. split; try done.
    intros l a (n & ? & ?)%Hn. exists n. simpl. split; [done|lia].
  - apply sound_register; try done.
    + by apply construct_Return in Ea as (? & _).
    + by apply construct_ownerName in Ea.
Qed.

Lemma sound_step (c : Command D) s : sound s -> sound (step c s).
Proof.
  intros Hs.
  destruct (step_cases c s)
    as [Hc|[(name & address & ->)|(cid & ty & i & r & lim & ->)]];
    eauto using sound_calls, sound_addCustomer, sound_createAccount.
Qed.

Lemma sound_run (cs : list (Command D)) s : sound s -> sound (run cs s).
Proof.
  induction cs as [|c cs IH] using rev_ind; [done|].
  intros Hs. rewrite run_snoc. by apply sound_step, IH.
Qed.

Lemma sound_reachable (name : string) (cs : list (Command D)) :
  sound (run cs (new_Bank name)).
Proof. apply sound_run, sound_new_Bank. Qed.

End RegistryFacts.

(** * Transaction histories *)

Section Histories.
Context {D : Type} `{Double D}.
Implicit Types (a : Account D) (amount : D).

(** What one call does to an object, with the test the amount passed. *)
Lemma apply_op_effect (o : Op D) a :
  apply_op o a = a \/
  (exists amt, d_le amt d_zero = false /\
     (apply_op o a = record "Deposit" amt (d_add (_balance a) amt) a \/
      apply_op o a = record "Withdrawal" amt (d_sub (_balance a) amt) a)) \/
  (exists r, dynamic a = IsSavingsAccount r /\
     apply_op o a
     = record "Interest Applied" (d_mul (_balance a) r)
         (d_add (_balance a) (d_mul (_balance a) r)) a).
Proof.
  destruct o as [amount|amount|]; simpl.
  - unfold deposit. destruct (d_le amount d_zero) eqn:E; [by left|].
    right. left. exists amount. auto.
  - destruct ((withdraw amount a).1.1) eqn:Ew.
    + right. left. exists amount. rewrite withdraw_accepted by done.
      rewrite withdraw_accepts in Ew. destruct (d_le amount d_zero); auto.
    + left. by apply withdraw_rejected.
  - unfold applyInterest. destruct (dynamic a) as [|r|l] eqn:Ed; auto.
    right. right. by exists r.
Qed.

(** X1: every transaction an account records carries the balance that the
    replay of the history up to and including it gives, starting from the
    initial balance. *)
Theorem history_records_running_balance
    a (initialBalance : D) (ops : list (Op D)) (i : nat) (t : Transaction D) :
  created a initialBalance ->
  _transactions (run_ops ops a) !! i = Some t ->
  newBalance t
  = replay (take (S i) (_transactions (run_ops ops a))) initialBalance.
Proof.
  intros Hc. destruct (created_fresh a initialBalance Hc) as [Hb Ht].
  assert (Ha : _balance a = replay (_transactions a) initialBalance /\
               forall i t, _transactions a !! i = Some t ->
                 newBalance t
                 = replay (take (S i) (_transactions a)) initialBalance).
  { rewrite Hb, Ht. split; [done|]. intros ? ?. by rewrite lookup_nil. }
  clear Hc Hb Ht. revert i t. cut
    (_balance (run_ops ops a)
     = replay (_transactions (run_ops ops a)) initialBalance /\
     forall i t, _transactions (run_ops ops a) !! i = Some t ->
       newBalance t
       = replay (take (S i) (_transactions (run_ops ops a))) initialBalance);
    [by intros [_ ?]|].
  revert a Ha. induction ops as [|o ops IH]; intros a Ha; [done|].
  rewrite run_ops_cons. apply IH. destruct Ha as [Hbal Hhist].
  split; [by apply apply_op_replay|].
  destruct (apply_op_cases o a) as [->|(ty & amt & b & -> & Hty)]; [done|].
  simpl. intros i t [[Hi E]|[-> <-]]%lookup_snoc_Some.
  - rewrite take_app_le by lia. by apply Hhist.
  - rewrite take_ge by (rewrite length_app; simpl; lia).
    rewrite replay_snoc, <- Hbal. unfold applyDelta. simpl.
    destruct Hty as [[[-> | ->] ->] | [-> ->]]; done.
Qed.

(** X2: the history only grows at its end: after any calls it is the old
    history followed by at most one new transaction for each call. *)
Theorem history_is_append_only a (ops : list (Op D)) :
  exists new,
    _transactions (run_ops ops a) = _transactions a ++ new /\
    (length new <= length ops)%nat.
Proof.
  revert a. induction ops as [|o ops IH]; intros a.
  { exists []. by rewrite app_nil_r. }
  rewrite run_ops_cons. destruct (IH (apply_op o a)) as (new & -> & Hlen).
  destruct (apply_op_cases o a) as [->|(ty & amt & b & -> & _)].
  - exists new. simpl. split; [done|lia].
  - eexists (_ :: new). simpl. rewrite <- app_assoc. split; [done|lia].
Qed.

(** X3: a history holds nothing but deposits and withdrawals whose amount
    passed the test [amount <= 0] (it was false) and, on a savings account
    only, applied interest. *)
Theorem recorded_transactions_passed_the_tests
    a (initialBalance : D) (ops : list (Op D)) (t : Transaction D) :
  created a initialBalance ->
  t ∈ _transactions (run_ops ops a) ->
  (type t = "Deposit" \/ type t = "Withdrawal") /\
    d_le (amount t) d_zero = false \/
  type t = "Interest Applied" /\
    exists r, dynamic a = IsSavingsAccount r.
Proof.
  intros Hc. destruct (created_fresh a initialBalance Hc) as [_ Ht].
  set (ok (k : Dynamic D) (t : Transaction D) :=
    (type t = "Deposit" \/ type t = "Withdrawal") /\
      d_le (amount t) d_zero = false \/
    type t = "Interest Applied" /\ exists r, k = IsSavingsAccount r).
  change (t ∈ _transactions (run_ops ops a) -> ok (dynamic a) t).
  assert (Ha : forall t, t ∈ _transactions a -> ok (dynamic a) t).
  { rewrite Ht. intros ? ?%elem_of_nil. done. }
  clear Hc Ht. revert t. revert a Ha.
  induction ops as [|o ops IH]; intros a Ha t; [by apply Ha|].
  rewrite run_ops_cons, <- (apply_op_dynamic o a). apply IH.
  intros t'. rewrite apply_op_dynamic.
  destruct (apply_op_effect o a)
    as [->|[(amt & Hamt & [-> | ->])|(r & Hr & ->)]];
    [by apply Ha|..]; simpl;
    (intros [?|E]%elem_of_app; [by apply Ha|]);
    apply list_elem_of_singleton in E; subst t'; unfold ok; simpl; eauto 6.
Qed.

(** X4: no sequence of [deposit], [withdraw] and [applyInterest] calls
    changes the number, the owner or the class of an account, nor its
    interest rate or overdraft limit. *)
Theorem method_calls_keep_identity a (ops : list (Op D)) :
  _accountNumber (run_ops ops a) = _accountNumber a /\
  _ownerName (run_ops ops a) = _ownerName a /\
  dynamic (run_ops ops a) = dynamic a.
Proof.
  split_and!;
    [apply run_ops_accountNumber|apply run_ops_ownerName|apply run_ops_dynamic].
Qed.

End Histories.

(** * Further properties of the bank *)

Section Ledgers.
Context {D : Type} `{Double D}.
Implicit Types (s : State D) (a b : Account D) (amount : D) (l : loc).

(** X5: [transferFunds] is all or nothing: whenever it returns [false],
    for whichever reason, the state is exactly what it was. *)
Theorem transferFunds_all_or_nothing f t amount s :
  (transferFunds f t amount s).1.1 = false ->
  (transferFunds f t amount s).1.2 = s.
Proof.
  destruct (getAccount f s) as [lf|] eqn:Ef.
  2: { unfold transferFunds. by rewrite Ef. }
  destruct (getAccount t s) as [lt|] eqn:Et.
  2: { unfold transferFunds. by rewrite Ef, Et. }
  destruct (decide (f = t)) as [Heq|Hne].
  { unfold transferFunds. by rewrite Ef, Et, bool_decide_eq_true_2. }
  destruct (d_le amount d_zero) eqn:Hpos.
  { unfold transferFunds. by rewrite Ef, Et, bool_decide_eq_false_2, Hpos. }
  destruct (heap s !! lf) as [a|] eqn:Ea.
  2: { unfold transferFunds.
       by rewrite Ef, Et, bool_decide_eq_false_2, Hpos, Ea. }
  rewrite (transferFunds_run f t amount s lf lt a) by done.
  destruct ((withdraw amount a).1.1); [|done]. cbv zeta.
  by destruct (heap (store lf (withdraw amount a).1.2 s) !! lt).
Qed.

(** X6: in a state the clients can reach, [transferFunds] returns [true]
    exactly when both numbers are registered, they differ, the amount is
    not [<= 0] and the withdrawal policy of the source permits it. *)
Theorem transferFunds_succeeds_iff
    (name : string) (cs : list (Command D)) f t amount :
  (transferFunds f t amount (run cs (new_Bank name))).1.1 = true <->
  exists lf lt a,
    getAccount f (run cs (new_Bank name)) = Some lf /\
    getAccount t (run cs (new_Bank name)) = Some lt /\
    f <> t /\ d_le amount d_zero = false /\
    heap (run cs (new_Bank name)) !! lf = Some a /\
    permits amount a = true.
Proof.
  generalize (wf_run cs (new_Bank name) (wf_new_Bank name)).
  generalize (run cs (new_Bank name)). intros s Hwf. split.
  - intros Hok.
    destruct (getAccount f s) as [lf|] eqn:Ef.
    2: { unfold transferFunds in Hok. by rewrite Ef in Hok. }
    destruct (getAccount t s) as [lt|] eqn:Et.
    2: { unfold transferFunds in Hok. by rewrite Ef, Et in Hok. }
    destruct (decide (f = t)) as [Heq|Hne].
    { unfold transferFunds in Hok.
      by rewrite Ef, Et, bool_decide_eq_true_2 in Hok. }
    destruct (d_le amount d_zero) eqn:Hpos.
    { unfold transferFunds in Hok.
      by rewrite Ef, Et, bool_decide_eq_false_2, Hpos in Hok. }
    destruct (wf_distinct s f t lf lt Hwf Ef Et Hne) as [_ (a & b & Ea & Eb)].
    exists lf, lt, a. split_and!; try done.
    rewrite (transferFunds_run f t amount s lf lt a) in Hok by done.
    destruct ((withdraw amount a).1.1) eqn:Hw; [|done].
    rewrite withdraw_accepts, Hpos in Hw. done.
  - intros (lf & lt & a & Ef & Et & Hne & Hpos & Ea & Hp).
    destruct (wf_distinct s f t lf lt Hwf Ef Et Hne) as [_ (a' & b & Ea' & Eb)].
    assert (a' = a) as -> by congruence.
    destruct (transferFunds_success s f t amount lf lt a b) as [_ ->];
      try done.
    by rewrite withdraw_accepts, Hpos, Hp.
Qed.

Lemma calls_length s s' : calls s s' -> length (heap s') = length (heap s).
Proof.
  induction 1 as [|s l a o s' _ _ IH]; [done|].
  rewrite IH. simpl. by rewrite length_insert.
Qed.

Lemma calls_keep_registry s s' :
  calls s s' ->
  bank s' = bank s /\
  length (heap s') = length (heap s) /\
  forall l a', heap s' !! l = Some a' ->
    exists a, heap s !! l = Some a /\
      _accountNumber a' = _accountNumber a /\
      _ownerName a' = _ownerName a /\ dynamic a' = dynamic a.
Proof.
  intros Hc. split_and!; [by apply calls_bank|by apply calls_length|].
  intros l a' E.
  destruct (calls_lookup s s' l Hc) as [[_ ?]|(b & ops & E1 & E2)];
    [congruence|].
  assert (a' = run_ops ops b) as -> by congruence.
  exists b. by rewrite run_ops_accountNumber, run_ops_ownerName, run_ops_dynamic.
Qed.

(** X7: a [deposit], [withdraw] or [applyInterest] call through
    [getAccount] and a [transferFunds] call leave the bank's maps and
    counters alone, create and remove no object, and change the number, the
    owner and the class of no account. *)
Theorem money_calls_keep_registry (c : Command D) s :
  match c with
  | call_addCustomer _ _ | call_createAccount _ _ _ _ _ => False
  | _ => True
  end ->
  bank (step c s) = bank s /\
  length (heap (step c s)) = length (heap s) /\
  forall l a', heap (step c s) !! l = Some a' ->
    exists a, heap s !! l = Some a /\
      _accountNumber a' = _accountNumber a /\
      _ownerName a' = _ownerName a /\ dynamic a' = dynamic a.
Proof.
  intros Hc. apply calls_keep_registry.
  destruct c; simpl; try done;
    auto using on_account_calls, transferFunds_calls.
Qed.

(** X8: in a state the clients can reach, [createAccount] for a known
    customer, with type ["savings"] or ["checking"], an initial balance that
    is not [< 0] and, for its type, an interest rate that is neither [< 0]
    nor [> 1] or an overdraft limit that is not [< 0], returns a pointer to
    a new object.  The object carries the next account number, which was
    free, the customer's name, the initial balance and an empty history;
    the bank and the customer both find it under its number; every object
    that existed is untouched and the counter has advanced by one. *)
Theorem createAccount_opens_account
    (name : string) (cs : list (Command D)) cid customer ty
    (initialBalance interestRate overdraftLimit : D) :
  let s := run cs (new_Bank name) in
  getCustomer cid s = Some customer ->
  d_lt initialBalance d_zero = false ->
  ty = "savings" /\
    d_lt interestRate d_zero || d_lt d_one interestRate = false \/
  ty = "checking" /\ d_lt overdraftLimit d_zero = false ->
  let r := createAccount cid ty initialBalance interestRate overdraftLimit s in
  let number := "ACC" +:+ to_string (_nextAccountNumber (bank s)) in
  let l := length (heap s) in
  r.1.1 = Return (Some l) /\
  getAccount number s = None /\
  getAccount number r.1.2 = Some l /\
  (exists customer', getCustomer cid r.1.2 = Some customer' /\
     Customer_getAccount number customer' = Some l) /\
  heap r.1.2 !! l
  = Some {| _accountNumber := number; _ownerName := c_name customer;
            _balance := initialBalance; _transactions := [];
            dynamic := if bool_decide (ty = "savings")
                       then IsSavingsAccount interestRate
                       else IsCheckingAccount overdraftLimit |} /\
  (forall l' a, heap s !! l' = Some a -> heap r.1.2 !! l' = Some a) /\
  _nextAccountNumber (bank r.1.2) = _nextAccountNumber (bank s) + 1.
Proof.
  intros s Ec Hi Hty r number l.
  pose proof (sound_reachable name cs) as Hs. fold s in Hs.
  destruct (sound_customer s Hs cid customer Ec) as (_ & Hname & _).
  set (a := {| _accountNumber := number; _ownerName := c_name customer;
               _balance := initialBalance; _transactions := [];
               dynamic := if bool_decide (ty = "savings")
                          then IsSavingsAccount interestRate
                          else IsCheckingAccount overdraftLimit |}).
  assert (Ea : construct ty number (getName customer) initialBalance
                 interestRate overdraftLimit = Some (Return a)).
  { unfold construct, new_SavingsAccount, new_CheckingAccount, new_Account,
      throw_if. unfold getName.
    rewrite (is_empty_false number), (is_empty_false (c_name customer)), Hi
      by done.
    destruct Hty as [[-> Hr]|[-> Hl]]; simpl.
    - by rewrite Hr.
    - by rewrite Hl. }
  subst r. rewrite (createAccount_Return cid ty _ _ _ s customer a) by done.
  unfold getAccount, getCustomer, Customer_getAccount. simpl.
  split_and!; try done.
  - apply wf_fresh_number, Hs.
  - by rewrite lookup_insert_eq.
  - eexists. split; [by rewrite lookup_insert_eq|]. simpl.
    by rewrite lookup_insert_eq.
  - by rewrite list_lookup_middle.
  - intros l' a' E. rewrite lookup_app_l by (by eapply lookup_lt_Some). done.
Qed.

(** X9: [createAccount] touches the heap and the two account maps only
    when it returns a pointer: if its result is [nullptr] or an exception,
    the account objects, the bank's account map and the customers are what
    they were, and the counter has advanced by at most one. *)
Theorem createAccount_registers_only_on_success
    cid ty (initialBalance interestRate overdraftLimit : D) s :
  let r := createAccount cid ty initialBalance interestRate overdraftLimit s in
  (forall l, r.1.1 <> Return (Some l)) ->
  heap r.1.2 = heap s /\
  b_accounts (bank r.1.2) = b_accounts (bank s) /\
  _customers (bank r.1.2) = _customers (bank s) /\
  _nextCustomerId (bank r.1.2) = _nextCustomerId (bank s) /\
  (_nextAccountNumber (bank r.1.2) = _nextAccountNumber (bank s) \/
   _nextAccountNumber (bank r.1.2) = _nextAccountNumber (bank s) + 1).
Proof.
  intros r Hr. subst r.
  destruct (getCustomer cid s) as [customer|] eqn:Ec.
  2: { unfold createAccount. rewrite Ec. simpl. split_and!; auto. }
  destruct (construct ty ("ACC" +:+ to_string (_nextAccountNumber (bank s)))
              (getName customer) initialBalance interestRate overdraftLimit)
    as [[a|e]|] eqn:Ea.
  - rewrite (createAccount_Return cid ty _ _ _ s customer a) in Hr by done.
    by destruct (Hr (length (heap s))).
  - unfold createAccount. rewrite Ec, Ea. simpl. split_and!; auto.
  - unfold createAccount. rewrite Ec, Ea. simpl. split_and!; auto.
Qed.

(** X10: for a known customer and type ["savings"] or ["checking"], an
    initial balance [< 0] makes [createAccount] throw [invalid_argument],
    and so does an overdraft limit [< 0] for type ["checking"]; nothing is
    registered and the account number of the call is used up. *)
Theorem createAccount_rejects_negative
    cid customer ty (initialBalance interestRate overdraftLimit : D) s :
  getCustomer cid s = Some customer ->
  (ty = "savings" \/ ty = "checking") /\ d_lt initialBalance d_zero = true \/
  ty = "checking" /\ d_lt overdraftLimit d_zero = true ->
  let r := createAccount cid ty initialBalance interestRate overdraftLimit s in
  (exists what, r.1.1 = Throw (invalid_argument what)) /\
  r.2 = [] /\
  heap r.1.2 = heap s /\
  b_accounts (bank r.1.2) = b_accounts (bank s) /\
  _customers (bank r.1.2) = _customers (bank s) /\
  _nextAccountNumber (bank r.1.2) = _nextAccountNumber (bank s) + 1.
Proof.
  intros Ec Hbad r. subst r.
  assert (exists what,
    construct ty ("ACC" +:+ to_string (_nextAccountNumber (bank s)))
      (getName customer) initialBalance interestRate overdraftLimit
    = Some (Throw (invalid_argument what))) as [what Ea].
  { unfold construct, new_SavingsAccount, new_CheckingAccount, new_Account,
      throw_if.
    destruct Hbad as [[[-> | ->] Hi]|[-> Hl]]; simpl;
      destruct (is_empty (getName customer)); simpl; eauto;
      try (rewrite Hi; simpl; eauto).
    destruct (d_lt initialBalance d_zero); simpl; eauto.
    rewrite Hl. eauto. }
  unfold createAccount. rewrite Ec, Ea. simpl. split_and!; eauto.
Qed.

(** X11: in a state the clients can reach, [addCustomer] with a name and
    an address that are not empty returns a new identifier, made from the
    counter, that no customer had; afterwards the bank finds under it a
    customer with this name and address and no account, every other
    customer is found as before, and no account has changed. *)
Theorem addCustomer_registers_customer
    (bankName : string) (cs : list (Command D)) (name address : string) :
  let s := run cs (new_Bank bankName) in
  name <> "" -> address <> "" ->
  let r := addCustomer name address s in
  let cid := "C" +:+ to_string (_nextCustomerId (bank s)) in
  r.1.1 = Return cid /\
  r.2 = [customer_added name cid] /\
  getCustomer cid s = None /\
  getCustomer cid r.1.2
  = Some {| _customerId := cid; c_name := name; _address := address;
            c_accounts := ∅ |} /\
  (forall cid', cid' <> cid -> getCustomer cid' r.1.2 = getCustomer cid' s) /\
  heap r.1.2 = heap s /\
  b_accounts (bank r.1.2) = b_accounts (bank s) /\
  _nextCustomerId (bank r.1.2) = _nextCustomerId (bank s) + 1.
Proof.
  intros s Hn Ha r cid. subst r.
  pose proof (sound_reachable bankName cs) as Hs. fold s in Hs.
  rewrite addCustomer_Return by done. unfold getCustomer. simpl.
  split_and!; try done.
  - apply eq_None_not_Some. intros [c Ec].
    destruct (sound_customer s Hs _ c Ec) as (_ & _ & _ & m & Em & Hm).
    apply customer_id_inj in Em. lia.
  - by rewrite lookup_insert_eq.
  - intros cid' Hne. by rewrite lookup_insert_ne.
Qed.

(** X12: [addCustomer] with an empty name or an empty address throws
    [invalid_argument] and prints nothing; no customer is registered, no
    account changes, and the identifier of the call is used up. *)
Theorem addCustomer_rejects_empty (name address : string) s :
  name = "" \/ address = "" ->
  let r := addCustomer name address s in
  (exists what, r.1.1 = Throw (invalid_argument what)) /\
  r.2 = [] /\
  _customers (bank r.1.2) = _customers (bank s) /\
  b_accounts (bank r.1.2) = b_accounts (bank s) /\
  heap r.1.2 = heap s /\
  _nextCustomerId (bank r.1.2) = _nextCustomerId (bank s) + 1.
Proof.
  intros Hna r. subst r.
  destruct (addCustomer_Throw name address s Hna) as [what ->].
  simpl. split_and!; eauto.
Qed.

(** One call removes nothing from the registry. *)
Lemma step_keeps_entries (c : Command D) s :
  sound s ->
  (forall n l, getAccount n s = Some l -> getAccount n (step c s) = Some l) /\
  (forall cid cu, getCustomer cid s = Some cu ->
     exists cu', getCustomer cid (step c s) = Some cu' /\
       _customerId cu' = _customerId cu /\ c_name cu' = c_name cu /\
       _address cu' = _address cu /\ c_accounts cu ⊆ c_accounts cu').
Proof.
  intros Hs.
  assert (Hsame : forall s',
    b_accounts (bank s') = b_accounts (bank s) ->
    _customers (bank s') = _customers (bank s) ->
    (forall n l, getAccount n s = Some l -> getAccount n s' = Some l) /\
    (forall cid cu, getCustomer cid s = Some cu ->
       exists cu', getCustomer cid s' = Some cu' /\
         _customerId cu' = _customerId cu /\ c_name cu' = c_name cu /\
         _address cu' = _address cu /\ c_accounts cu ⊆ c_accounts cu')).
  { intros s' Ea Ec. unfold getAccount, getCustomer. rewrite Ea, Ec.
    split; [done|]. intros cid cu E. by exists cu. }
  destruct (step_cases c s)
    as [Hc|[(name & address & ->)|(cid & ty & i & r & lim & ->)]].
  - apply Hsame; by rewrite (calls_bank _ _ Hc).
  - destruct (decide (name = "")) as [Hn|Hn];
      [|destruct (decide (address = "")) as [Ha|Ha]].
    1, 2: destruct (addCustomer_Throw name address s) as [what ->];
      [by auto|]; unfold getAccount, getCustomer; simpl;
      (split; [done|]); intros cid cu Ec; by exists cu.
    rewrite addCustomer_Return by done.
    unfold getAccount, getCustomer. simpl. split; [done|].
    intros cid cu Ec. exists cu. split; [|done].
    rewrite lookup_insert_ne; [done|]. intros <-.
    destruct (sound_customer s Hs _ cu Ec) as (_ & _ & _ & m & Em & Hm).
    apply customer_id_inj in Em. lia.
  - destruct (createAccount_state cid ty i r lim s)
      as [->|[->|(customer & a & Ec & Ea & ->)]].
    + by apply Hsame.
    + by apply Hsame.
    + apply construct_Return in Ea as (Hnum & _).
      pose proof (wf_fresh_number s (sound_wf s Hs)) as Hfresh.
      rewrite <- Hnum in Hfresh.
      unfold getAccount, getCustomer in *. simpl. split.
      * intros n l E. rewrite lookup_insert_ne; [done|]. intros <-. congruence.
      * intros cid' cu E. destruct (decide (cid' = cid)) as [->|Hne].
        -- assert (cu = customer) as -> by congruence.
           eexists. split; [by rewrite lookup_insert_eq|]. simpl.
           split_and!; try done. apply insert_subseteq.
           apply eq_None_not_Some. intros [l El].
           destruct (sound_wf s Hs) as [_ Hcu _].
           by rewrite (Hcu _ _ _ _ Ec El) in Hfresh.
        -- exists cu. by rewrite lookup_insert_ne.
Qed.

(** X13: accounts and customers are never removed.  From a state the
    clients can reach, whatever they do next, an account number keeps
    leading to the same object, and a customer identifier to a customer
    with the same identifier, name and address, whose portfolio holds at
    least the accounts it held. *)
Theorem registry_only_grows
    (name : string) (cs cs' : list (Command D)) :
  let s := run cs (new_Bank name) in
  (forall n l, getAccount n s = Some l -> getAccount n (run cs' s) = Some l) /\
  (forall cid cu, getCustomer cid s = Some cu ->
     exists cu', getCustomer cid (run cs' s) = Some cu' /\
       _customerId cu' = _customerId cu /\ c_name cu' = c_name cu /\
       _address cu' = _address cu /\ c_accounts cu ⊆ c_accounts cu').
Proof.
  intros s. pose proof (sound_reachable name cs) as Hs. fold s in Hs.
  induction cs' as [|c cs' IH] using rev_ind.
  { split; [done|]. intros cid cu Ec. by exists cu. }
  rewrite run_snoc. destruct IH as [IHa IHc].
  destruct (step_keeps_entries c (run cs' s)) as [Ha Hc];
    [by apply sound_run|].
  split; [by auto|].
  intros cid cu (cu1 & E1 & ? & ? & ? & ?)%IHc.
  destruct (Hc cid cu1 E1) as (cu2 & E2 & ? & ? & ? & ?).
  exists cu2. split_and!; try congruence. by etrans.
Qed.

(** X14: in a state the clients can reach, every account the bank has is
    in the portfolio of exactly one customer, under the same number and as
    the same object, and carries that customer's name as owner; and every
    entry of a portfolio is an entry of the bank. *)
Theorem every_account_has_one_owner
    (name : string) (cs : list (Command D)) :
  let s := run cs (new_Bank name) in
  (forall n l, getAccount n s = Some l ->
     exists cid cu a,
       getCustomer cid s = Some cu /\ Customer_getAccount n cu = Some l /\
       heap s !! l = Some a /\ getAccountNumber a = n /\
       getOwnerName a = getName cu /\
       forall cid' cu', getCustomer cid' s = Some cu' ->
         is_Some (Customer_getAccount n cu') -> cid' = cid) /\
  (forall cid cu n l, getCustomer cid s = Some cu ->
     Customer_getAccount n cu = Some l -> getAccount n s = Some l).
Proof.
  intros s. pose proof (sound_reachable name cs) as Hs. fold s in Hs.
  split.
  - intros n l E.
    destruct (sound_owner s Hs n l E) as (cid & cu & a & ? & ? & Ea & ? & ?).
    exists cid, cu, a. split_and!; try done.
    destruct (wf_accounts s (sound_wf s Hs) n l E) as (a' & Ea' & ?).
    unfold getAccountNumber. congruence.
  - intros cid cu n l Ec En. by eapply (wf_customers s (sound_wf s Hs)).
Qed.

(** X15: in a state the clients can reach, every account object is
    registered with the bank under its own number, so two different objects
    never carry the same number, and the number is ["ACC"] followed by an
    integer that the counter has passed. *)
Theorem account_numbers_are_unique
    (name : string) (cs : list (Command D)) l1 l2 a1 a2 :
  let s := run cs (new_Bank name) in
  heap s !! l1 = Some a1 -> heap s !! l2 = Some a2 ->
  getAccount (getAccountNumber a1) s = Some l1 /\
  (getAccountNumber a1 = getAccountNumber a2 -> l1 = l2) /\
  exists n, getAccountNumber a1 = "ACC" +:+ to_string n /\
            n < _nextAccountNumber (bank s).
Proof.
  intros s E1 E2. pose proof (sound_reachable name cs) as Hs. fold s in Hs.
  pose proof (sound_registered s Hs l1 a1 E1) as R1.
  pose proof (sound_registered s Hs l2 a2 E2) as R2.
  unfold getAccountNumber. split_and!; [done| |].
  - intros E. rewrite E in R1. congruence.
  - by apply (wf_numbers s (sound_wf s Hs) l1).
Qed.

(** X16: in a state the clients can reach, a customer is filed under its
    own identifier, which is ["C"] followed by an integer that the counter
    has passed, and has a name and an address that are not empty. *)
Theorem customers_are_filed_under_their_id
    (name : string) (cs : list (Command D)) cid cu :
  let s := run cs (new_Bank name) in
  getCustomer cid s = Some cu ->
  _customerId cu = cid /\ getName cu <> "" /\ _address cu <> "" /\
  exists m, cid = "C" +:+ to_string m /\ m < _nextCustomerId (bank s).
Proof.
  intros s Ec. by apply (sound_customer s (sound_reachable name cs)).
Qed.

End Ledgers.

(** * Enumeration and reports *)

Section KeyOrder.
Context {A : Type}.
Implicit Types (m : gmap string A).

#[local] Instance key_le_total : Total (key_le (A:=A)).
Proof. intros x y. apply Stdlib.Strings.String.leb_total. Qed.

Lemma in_key_order_Permutation m : in_key_order m ≡ₚ map_to_list m.
Proof. apply merge_sort_Permutation. Qed.

Lemma elem_of_in_key_order m k x : (k, x) ∈ in_key_order m <-> m !! k = Some x.
Proof. by rewrite in_key_order_Permutation, elem_of_map_to_list. Qed.

Lemma in_key_order_NoDup m : NoDup (in_key_order m).*1.
Proof. rewrite in_key_order_Permutation. apply NoDup_fst_map_to_list. Qed.

Lemma in_key_order_Sorted m :
  Sorted (fun k1 k2 => Stdlib.Strings.String.leb k1 k2 = true)
    (in_key_order m).*1.
Proof.
  eapply Sorted_fmap; [|apply (Sorted_merge_sort key_le)]. by intros x y.
Qed.

Lemma in_key_order_length m : length (in_key_order m) = size m.
Proof. by rewrite in_key_order_Permutation, length_map_to_list. Qed.

(** The values of a map in which no value occurs under two keys. *)
Lemma in_key_order_values_NoDup m :
  (forall k1 k2 x, m !! k1 = Some x -> m !! k2 = Some x -> k1 = k2) ->
  NoDup (in_key_order m).*2.
Proof.
  intros Hinj. apply NoDup_fmap_2_strong.
  - intros [k1 x1] [k2 x2] E1%elem_of_in_key_order E2%elem_of_in_key_order.
    simpl. intros <-. f_equal. by eapply Hinj.
  - eapply NoDup_fmap_1, in_key_order_NoDup.
Qed.

End KeyOrder.

(** X17: [getAllAccounts] returns the pointers of the customer's portfolio,
    one for each entry, none else, in increasing order of account
    number. *)
Theorem getAllAccounts_lists_portfolio (c : Customer) :
  exists entries : list (string * loc),
    getAllAccounts c = entries.*2 /\
    (forall n l, (n, l) ∈ entries <-> Customer_getAccount n c = Some l) /\
    NoDup entries.*1 /\
    Sorted (fun n1 n2 => Stdlib.Strings.String.leb n1 n2 = true) entries.*1 /\
    length (getAllAccounts c) = size (c_accounts c).
Proof.
  exists (in_key_order (c_accounts c)). split_and!.
  - done.
  - intros n l. apply elem_of_in_key_order.
  - apply in_key_order_NoDup.
  - apply in_key_order_Sorted.
  - unfold getAllAccounts. by rewrite length_fmap, in_key_order_length.
Qed.

Section ReportFacts.
Context {D : Type} `{Double D}.
Implicit Types (s : State D) (a b : Account D) (l : loc) (h : list (Account D)).

Lemma objects_seq h' h :
  objects (h' ++ h) (seq (length h') (length h)) = h.
Proof.
  revert h'. induction h as [|x h IH]; intros h'; [done|].
  simpl. unfold objects in *. simpl.
  rewrite list_lookup_middle by done. f_equal.
  specialize (IH (h' ++ [x])). rewrite <- app_assoc, length_app in IH.
  simpl in IH. by rewrite Nat.add_1_r in IH.
Qed.

Lemma objects_all h : objects h (seq 0 (length h)) = h.
Proof. apply (objects_seq [] h). Qed.

Lemma objects_numbers h (es : list (string * loc)) :
  (forall k l, (k, l) ∈ es -> exists a, h !! l = Some a /\ _accountNumber a = k) ->
  _accountNumber <$> objects h es.*2 = es.*1.
Proof.
  induction es as [|[k l] es IH]; intros Hes; [done|].
  destruct (Hes k l) as (a & Ea & Hk); [by left|].
  unfold objects in *. simpl. rewrite Ea. simpl. rewrite Hk. f_equal.
  apply IH. intros k' l' ?. apply Hes. by right.
Qed.

(** In a sound state the pointers of the bank's map are the locations of
    the heap, each once. *)
Lemma bank_pointers s :
  sound s ->
  (in_key_order (b_accounts (bank s))).*2 ≡ₚ seq 0 (length (heap s)).
Proof.
  intros Hs. apply NoDup_Permutation.
  - apply in_key_order_values_NoDup. intros k1 k2 l E1 E2.
    destruct (wf_accounts s (sound_wf s Hs) k1 l E1) as (a1 & Ea1 & <-).
    destruct (wf_accounts s (sound_wf s Hs) k2 l E2) as (a2 & Ea2 & <-).
    congruence.
  - apply NoDup_seq.
  - intros l. rewrite elem_of_seq, list_elem_of_fmap. split.
    + intros ([k l'] & -> & E%elem_of_in_key_order). simpl.
      destruct (wf_accounts s (sound_wf s Hs) k l' E) as (a & Ea & _).
      apply lookup_lt_Some in Ea. lia.
    + intros [_ Hl]. destruct (lookup_lt_is_Some_2 (heap s) l) as [a Ea];
        [lia|].
      exists (_accountNumber a, l). split; [done|].
      apply elem_of_in_key_order. by apply (sound_registered s Hs).
Qed.

(** X18: in a state the clients can reach, [displayAllAccounts] prints the
    line of the empty bank when there is no account object; otherwise it
    prints, between its header and its footer, the details of every account
    object, each once and with its current state, in increasing order of
    account number. *)
Theorem displayAllAccounts_lists_every_account
    (name : string) (cs : list (Command D)) :
  let s := run cs (new_Bank name) in
  heap s = [] /\ displayAllAccounts s = [no_accounts] \/
  heap s <> [] /\
  exists accounts : list (Account D),
    displayAllAccounts s
    = accounts_header :: (printDetails <$> accounts) ++ [accounts_footer] /\
    accounts ≡ₚ heap s /\
    Sorted (fun n1 n2 => Stdlib.Strings.String.leb n1 n2 = true)
      (getAccountNumber <$> accounts).
Proof.
  intros s. pose proof (sound_reachable name cs) as Hs. fold s in Hs.
  pose proof (bank_pointers s Hs) as Hp.
  assert (Hsize : size (b_accounts (bank s)) = length (heap s)).
  { rewrite <- in_key_order_length,
      <- (length_fmap snd (in_key_order (b_accounts (bank s)))), Hp.
    apply length_seq. }
  unfold displayAllAccounts. rewrite Hsize.
  destruct (heap s) as [|a0 h] eqn:Eh; [by left|]. right. split; [done|].
  rewrite bool_decide_eq_false_2 by done. rewrite <- Eh in *.
  exists (objects (heap s) (in_key_order (b_accounts (bank s))).*2).
  split_and!; [done| |].
  - unfold objects. rewrite Hp. fold (objects (heap s) (seq 0 (length (heap s)))).
    by rewrite objects_all.
  - change (getAccountNumber <$> ?x) with (_accountNumber <$> x).
    rewrite objects_numbers; [apply in_key_order_Sorted|].
    intros k l E%elem_of_in_key_order.
    by apply (wf_accounts s (sound_wf s Hs)).
Qed.

Lemma objects_app h (ls1 ls2 : list loc) :
  objects h (ls1 ++ ls2) = objects h ls1 ++ objects h ls2.
Proof. apply omap_app. Qed.

Lemma objects_bind {B : Type} h (g : B -> list loc) (es : list B) :
  concat ((fun p => objects h (g p)) <$> es) = objects h (es ≫= g).
Proof.
  induction es as [|p es IH]; [done|].
  csimpl. by rewrite objects_app, IH.
Qed.

Lemma elem_of_objects h (ls : list loc) a :
  a ∈ objects h ls <-> exists l, l ∈ ls /\ h !! l = Some a.
Proof. apply list_elem_of_omap. Qed.

Lemma elem_of_getAllAccounts (c : Customer) l :
  l ∈ getAllAccounts c <-> exists n, Customer_getAccount n c = Some l.
Proof.
  unfold getAllAccounts. rewrite list_elem_of_fmap. split.
  - intros ([n l'] & -> & E%elem_of_in_key_order). by exists n.
  - intros [n E]. exists (n, l). split; [done|]. by apply elem_of_in_key_order.
Qed.

Lemma filed_ids (es : list (string * Customer)) :
  (forall k c, (k, c) ∈ es -> _customerId c = k) ->
  _customerId <$> es.*2 = es.*1.
Proof.
  induction es as [|[k c] es IH]; intros Hes; [done|].
  simpl. rewrite (Hes k c) by (by left). f_equal.
  apply IH. intros k' c' ?. apply Hes. by right.
Qed.

(** In a sound state a pointer in the portfolio of a customer found under
    [cid] leads to an object of that customer, and to no other portfolio. *)
Lemma portfolio_pointer s cid c l :
  sound s -> getCustomer cid s = Some c -> l ∈ getAllAccounts c ->
  exists a, heap s !! l = Some a /\ _ownerName a = c_name c /\
    forall cid' c', getCustomer cid' s = Some c' -> l ∈ getAllAccounts c' ->
      cid' = cid.
Proof.
  intros Hs Ec [n En]%elem_of_getAllAccounts.
  pose proof (wf_customers s (sound_wf s Hs) cid c n l Ec En) as Eb.
  destruct (sound_owner s Hs n l Eb) as (cid0 & c0 & a & Ec0 & _ & Ea & Ho & Hu).
  assert (cid = cid0) as <- by (apply (Hu cid c); [done|by exists l]).
  assert (c0 = c) as -> by congruence.
  exists a. split_and!; try done.
  intros cid' c' Ec' [n' En']%elem_of_getAllAccounts.
  pose proof (wf_customers s (sound_wf s Hs) cid' c' n' l Ec' En') as Eb'.
  destruct (wf_accounts s (sound_wf s Hs) n l Eb) as (a1 & Ea1 & <-).
  destruct (wf_accounts s (sound_wf s Hs) n' l Eb') as (a2 & Ea2 & Hn').
  assert (a2 = a1) as -> by congruence.
  apply (Hu cid' c'); [done|]. exists l. by rewrite Hn'.
Qed.

Lemma getAllAccounts_NoDup s cid c :
  sound s -> getCustomer cid s = Some c -> NoDup (getAllAccounts c).
Proof.
  intros Hs Ec. apply in_key_order_values_NoDup. intros k1 k2 l E1 E2.
  pose proof (wf_customers s (sound_wf s Hs) cid c k1 l Ec E1) as Eb1.
  pose proof (wf_customers s (sound_wf s Hs) cid c k2 l Ec E2) as Eb2.
  destruct (wf_accounts s (sound_wf s Hs) k1 l Eb1) as (a1 & Ea1 & <-).
  destruct (wf_accounts s (sound_wf s Hs) k2 l Eb2) as (a2 & Ea2 & <-).
  congruence.
Qed.

(** In a sound state the portfolios together hold the locations of the
    heap, each once. *)
Lemma portfolio_pointers s :
  sound s ->
  in_key_order (_customers (bank s)) ≫= (fun p => getAllAccounts p.2)
  ≡ₚ seq 0 (length (heap s)).
Proof.
  intros Hs. apply NoDup_Permutation.
  - apply NoDup_bind.
    + intros [cid1 c1] [cid2 c2] l E1%elem_of_in_key_order
        E2%elem_of_in_key_order L1 L2. simpl in *.
      destruct (portfolio_pointer s cid1 c1 l Hs E1 L1) as (_ & _ & _ & Hu).
      assert (cid2 = cid1) as -> by (by eapply Hu).
      unfold getCustomer in *. congruence.
    + intros [cid c] E%elem_of_in_key_order. by eapply getAllAccounts_NoDup.
    + eapply NoDup_fmap_1, in_key_order_NoDup.
  - apply NoDup_seq.
  - intros l. rewrite elem_of_seq, list_elem_of_bind. split.
    + intros ([cid c] & L & E%elem_of_in_key_order). simpl in L.
      destruct (portfolio_pointer s cid c l Hs E L) as (a & Ea & _).
      apply lookup_lt_Some in Ea. lia.
    + intros [_ Hl]. destruct (lookup_lt_is_Some_2 (heap s) l) as [a Ea];
        [lia|].
      pose proof (sound_registered s Hs l a Ea) as Eb.
      destruct (sound_owner s Hs _ l Eb) as (cid & c & _ & Ec & En & _).
      exists (cid, c). split; [|by apply elem_of_in_key_order].
      apply elem_of_getAllAccounts. by eexists.
Qed.

(** X19: in a state the clients can reach, [displayAllCustomers] prints the
    line of the empty bank when there is no customer; otherwise it prints,
    between its header and its footer, one section for each customer, in
    increasing order of identifier: the details of the customer, then the
    details of the accounts of its portfolio in increasing order of account
    number.  Every account listed in a section carries the name of the
    section's customer as owner, and every account object of the bank is
    listed exactly once over all sections. *)
Theorem displayAllCustomers_lists_every_account
    (name : string) (cs : list (Command D)) :
  let s := run cs (new_Bank name) in
  _customers (bank s) = ∅ /\ displayAllCustomers s = [no_customers] \/
  _customers (bank s) <> ∅ /\
  exists sections : list (Customer * list (Account D)),
    displayAllCustomers s
    = customers_header ::
      (sections ≫= fun p =>
         Customer_printDetails p.1 :: (listed ∘ printDetails <$> p.2))
      ++ [customers_footer] /\
    sections.*1 ≡ₚ (map_to_list (_customers (bank s))).*2 /\
    Sorted (fun i1 i2 => Stdlib.Strings.String.leb i1 i2 = true)
      (_customerId <$> sections.*1) /\
    concat sections.*2 ≡ₚ heap s /\
    Forall (fun p =>
      Forall (fun a => getOwnerName a = getName p.1) p.2 /\
      Sorted (fun n1 n2 => Stdlib.Strings.String.leb n1 n2 = true)
        (getAccountNumber <$> p.2)) sections.
Proof.
  intros s. pose proof (sound_reachable name cs) as Hs. fold s in Hs.
  unfold displayAllCustomers.
  destruct (decide (_customers (bank s) = ∅)) as [E|Hne].
  { left. split; [done|]. by rewrite E. }
  right. split; [done|].
  rewrite bool_decide_eq_false_2 by (by rewrite map_size_empty_iff).
  set (es := in_key_order (_customers (bank s))).
  exists ((fun p => (p.2, objects (heap s) (getAllAccounts p.2))) <$> es).
  split_and!.
  - by rewrite list_fmap_bind.
  - rewrite <- list_fmap_compose. subst es.
    by rewrite in_key_order_Permutation.
  - assert (_customerId <$>
              ((fun p : string * Customer =>
                  (p.2, objects (heap s) (getAllAccounts p.2))) <$> es).*1
            = _customerId <$> es.*2) as ->
      by (by rewrite <- !list_fmap_compose).
    rewrite filed_ids; [apply in_key_order_Sorted|].
    intros k c E%elem_of_in_key_order.
    by destruct (sound_customer s Hs k c E).
  - assert (((fun p : string * Customer =>
                 (p.2, objects (heap s) (getAllAccounts p.2))) <$> es).*2
            = (fun p => objects (heap s) (getAllAccounts p.2)) <$> es) as ->
      by (by rewrite <- list_fmap_compose).
    rewrite objects_bind. unfold objects. subst es.
    rewrite (portfolio_pointers s Hs).
    fold (objects (heap s) (seq 0 (length (heap s)))). by rewrite objects_all.
  - apply Forall_fmap, Forall_forall. intros [cid c] E%elem_of_in_key_order.
    simpl. split.
    + apply Forall_forall. intros a (l & L & Ea)%elem_of_objects.
      destruct (portfolio_pointer s cid c l Hs E L) as (a' & Ea' & Ho & _).
      unfold getOwnerName, getName. congruence.
    + change (getAccountNumber <$> ?x) with (_accountNumber <$> x).
      unfold getAllAccounts. rewrite objects_numbers; [apply in_key_order_Sorted|].
      intros k l El%elem_of_in_key_order.
      apply (wf_accounts s (sound_wf s Hs)).
      by apply (wf_customers s (sound_wf s Hs) cid c).
Qed.

End ReportFacts.

(** * NaN in binary64 *)

Lemma SFcompare_refl (x : spec_float) :
  x <> S754_nan -> SFcompare x x = Some Eq.
Proof.
  destruct x as [sx|sx| |sx mx ex]; simpl; try done; try (by destruct sx).
  intros _. rewrite Z.compare_refl, Pos.compare_cont_refl. by destruct sx.
Qed.

Lemma is_nan_true (x : float) : is_nan x = true <-> Prim2SF x = S754_nan.
Proof.
  unfold is_nan. rewrite FloatAxioms.eqb_spec. unfold SFeqb. split.
  - intros E. destruct (Prim2SF x) eqn:Hx; try done;
      by rewrite SFcompare_refl in E.
  - by intros ->.
Qed.

Lemma nan_add (x y : float) :
  is_nan x = true \/ is_nan y = true -> is_nan (x + y) = true.
Proof.
  rewrite !is_nan_true, add_spec. unfold SF64add, SFadd.
  intros [-> | ->]; [done|]. by destruct (Prim2SF x).
Qed.

Lemma nan_sub (x y : float) :
  is_nan x = true \/ is_nan y = true -> is_nan (x - y) = true.
Proof.
  rewrite !is_nan_true, sub_spec. unfold SF64sub, SFsub.
  intros [-> | ->]; [done|]. by destruct (Prim2SF x).
Qed.

Lemma nan_mul (x y : float) :
  is_nan x = true \/ is_nan y = true -> is_nan (x * y) = true.
Proof.
  rewrite !is_nan_true, mul_spec. unfold SF64mul, SFmul.
  intros [-> | ->]; [done|]. by destruct (Prim2SF x).
Qed.

Lemma nan_ltb (x y : float) :
  is_nan x = true \/ is_nan y = true -> PrimFloat.ltb x y = false.
Proof.
  rewrite !is_nan_true, FloatAxioms.ltb_spec. unfold SFltb.
  intros [-> | ->]; [done|]. by destruct (Prim2SF x).
Qed.

Lemma nan_leb (x y : float) :
  is_nan x = true \/ is_nan y = true -> PrimFloat.leb x y = false.
Proof.
  rewrite !is_nan_true, FloatAxioms.leb_spec. unfold SFleb.
  intros [-> | ->]; [done|]. by destruct (Prim2SF x).
Qed.

Lemma nan_amount_accepts (amount : float) (a : Account float) :
  is_nan amount = true ->
  d_le amount d_zero = false /\ (withdraw amount a).1.1 = true.
Proof.
  intros Hn. assert (Hpos : d_le amount d_zero = false)
    by (simpl; by rewrite (nan_leb amount 0) by auto).
  split; [done|]. rewrite withdraw_accepts, Hpos. simpl.
  unfold permits. simpl. destruct (dynamic a); by rewrite nan_ltb by auto.
Qed.

(** X20: on binary64, [deposit] returns [true] exactly when the amount is
    greater than 0 or is NaN: the test [amount <= 0] is false for NaN. *)
Theorem deposit_accepts_positive_or_nan (amount : float) (a : Account float) :
  (deposit amount a).1.1 = true <->
  PrimFloat.ltb 0 amount = true \/ is_nan amount = true.
Proof.
  rewrite deposit_accepts. simpl. destruct (is_nan amount) eqn:En.
  - rewrite (nan_leb amount 0) by auto. simpl. split; auto.
  - rewrite (ltb_leb_dual 0 amount) by done.
    destruct (PrimFloat.leb amount 0); simpl; split; auto.
    intros [?|?]; done.
Qed.

(** X21: on binary64, a NaN amount passes every test: [deposit] and
    [withdraw], of either class, return [true] and leave a NaN balance. *)
Theorem nan_amount_is_accepted (amount : float) (a : Account float) :
  is_nan amount = true ->
  (deposit amount a).1.1 = true /\
  is_nan (getBalance (deposit amount a).1.2) = true /\
  (withdraw amount a).1.1 = true /\
  is_nan (getBalance (withdraw amount a).1.2) = true.
Proof.
  intros Hn.
  assert (Hd : (deposit amount a).1.1 = true).
  { rewrite deposit_accepts. simpl. by rewrite (nan_leb amount 0) by auto. }
  assert (Hw : (withdraw amount a).1.1 = true).
  { rewrite withdraw_accepts. simpl. rewrite (nan_leb amount 0) by auto.
    unfold permits. simpl. destruct (dynamic a); by rewrite nan_ltb by auto. }
  split_and!; try done.
  - rewrite deposit_accepted by done. simpl. apply nan_add. auto.
  - rewrite withdraw_accepted by done. simpl. apply nan_sub. auto.
Qed.

(** X22: on binary64, a NaN balance stays: whatever [deposit], [withdraw]
    and [applyInterest] calls follow, the balance is NaN; and with a NaN
    balance [withdraw] accepts every amount that is not [<= 0]. *)
Theorem nan_balance_is_absorbing (a : Account float) (ops : list (Op float)) :
  is_nan (getBalance a) = true ->
  is_nan (getBalance (run_ops ops a)) = true /\
  forall amount,
    (withdraw amount a).1.1 = negb (PrimFloat.leb amount 0).
Proof.
  unfold getBalance. intros Hn. split.
  - revert a Hn. induction ops as [|o ops IH]; intros a Hn; [done|].
    rewrite run_ops_cons. apply IH.
    destruct (apply_op_cases o a) as [->|(ty & amt & b & -> & Hty)]; [done|].
    simpl. destruct Hty as [[_ ->] | [_ ->]]; [apply nan_add|apply nan_sub];
      auto.
  - intros amount. rewrite withdraw_accepts. simpl.
    assert (permits amount a = true) as ->; [|by rewrite andb_true_r].
    unfold permits. simpl.
    destruct (dynamic a); rewrite nan_ltb; auto using nan_add.
Qed.

(** X23: on binary64, the constructors do not refuse NaN: with an account
    number and an owner name that are not empty, a NaN initial balance, a
    NaN interest rate and a NaN overdraft limit pass the tests
    [initialBalance < 0], [interestRate < 0 || interestRate > 1] and
    [overdraftLimit < 0], and the object is made with them. *)
Theorem constructors_accept_nan
    (accountNumber ownerName : string) (i r lim : float) :
  accountNumber <> "" -> ownerName <> "" ->
  is_nan i = true -> is_nan r = true -> is_nan lim = true ->
  new_SavingsAccount accountNumber ownerName i r
  = Return {| _accountNumber := accountNumber; _ownerName := ownerName;
              _balance := i; _transactions := [];
              dynamic := IsSavingsAccount r |} /\
  new_CheckingAccount accountNumber ownerName i lim
  = Return {| _accountNumber := accountNumber; _ownerName := ownerName;
              _balance := i; _transactions := [];
              dynamic := IsCheckingAccount lim |}.
Proof.
  intros Hn Ho Hi Hr Hl.
  unfold new_SavingsAccount, new_CheckingAccount, new_Account, throw_if.
  rewrite (is_empty_false accountNumber), (is_empty_false ownerName) by done.
  simpl. rewrite (nan_ltb i 0), (nan_ltb r 0), (nan_ltb 1 r), (nan_ltb lim 0)
    by auto.
  done.
Qed.

(** X24: on binary64, in a state the clients can reach, a transfer of NaN
    between two different registered accounts succeeds and leaves a NaN
    balance in both. *)
Theorem transfer_of_nan_succeeds
    (name : string) (cs : list (Command float)) f t (amount : float) lf lt :
  let s := run cs (new_Bank name) in
  getAccount f s = Some lf -> getAccount t s = Some lt -> f <> t ->
  is_nan amount = true ->
  let r := transferFunds f t amount s in
  r.1.1 = true /\
  (exists a, heap r.1.2 !! lf = Some a /\ is_nan (getBalance a) = true) /\
  (exists b, heap r.1.2 !! lt = Some b /\ is_nan (getBalance b) = true).
Proof.
  intros s Ef Et Hne Hn r. subst r.
  assert (Hwf : wf s) by apply wf_run, wf_new_Bank.
  destruct (wf_distinct s f t lf lt Hwf Ef Et Hne) as [Hl (a & b & Ea & Eb)].
  destruct (nan_amount_accepts amount a Hn) as (Hpos & Hw).
  destruct (transferFunds_success s f t amount lf lt a b) as [_ ->];
    try done.
  simpl. split_and!; [done|eexists|eexists].
  - rewrite list_lookup_insert_ne by done.
    rewrite list_lookup_insert_eq by (by eapply lookup_lt_Some).
    split; [done|]. apply nan_sub. auto.
  - rewrite list_lookup_insert_eq
      by (rewrite length_insert; by eapply lookup_lt_Some).
    split; [done|]. apply nan_add. auto.
Qed.

(** * Balances without overdraft *)

(** X25: where the run comes without rounding, an account that is not a
    checking account has a balance of at least 0, a savings account has an
    interest rate from 0 to 1, and an exact [applyInterest] never lowers
    the balance. *)
Theorem balance_without_overdraft_is_not_negative
    (name : string) (cs : list (Command float)) l (a : Account float) :
  exact_run cs (new_Bank name) = true ->
  heap (run cs (new_Bank name)) !! l = Some a ->
  (forall lim, dynamic a <> IsCheckingAccount lim) ->
  PrimFloat.leb 0 (getBalance a) = true /\
  (forall r, dynamic a = IsSavingsAccount r ->
     PrimFloat.leb 0 r = true /\ PrimFloat.leb r 1 = true) /\
  (forall a' out, applyInterest a = Some (a', out) ->
     exact_call op_applyInterest a = true ->
     PrimFloat.leb (getBalance a) (getBalance a') = true).
Proof.
  intros He Ea Hdyn.
  destruct (reachable_limits name cs l a He Ea) as (vb & Eb & Hlim).
  unfold getBalance, applyInterest. simpl.
  destruct (dynamic a) as [|r|lim] eqn:Hd.
  - split_and!; [|intros ? [=]|intros ? ? [=]].
    rewrite (leb_value _ _ 0 vb value_zero Eb). by apply Z.leb_le.
  - destruct Hlim as (Hb & vr & Er & Hr). split_and!.
    + rewrite (leb_value _ _ 0 vb value_zero Eb). by apply Z.leb_le.
    + intros ? [= <-].
      rewrite (leb_value _ _ 0 vr value_zero Er).
      rewrite (leb_value _ _ vr (2 ^ 1074) Er value_one).
      split; apply Z.leb_le; lia.
    + intros a' out [= <- _] Hex. simpl.
      apply exact_add_value in Hex as (vx & vi & Ex & Ei & Es).
      assert (vx = vb) as -> by congruence.
      assert (0 <= vi)
        by (eapply (value_mul_nonneg _ _ vb vr); [..|exact Ei]; done || lia).
      rewrite (leb_value _ _ vb (vb + vi) Eb Es). apply Z.leb_le. lia.
  - by destruct (Hdyn lim).
Qed.

(** * The portfolio of a customer *)

(** X26: [Customer::addAccount] throws [invalid_argument] for a null
    pointer and prints nothing.  For a pointer to a live object it files
    the pointer under the object's account number, replacing what was filed
    there: afterwards [getAccount] finds it under that number and finds
    every other number as before, and the customer's identifier, name and
    address are unchanged. *)
Theorem addAccount_files_pointer
    {D : Type} (c : Customer) (h : list (Account D)) (l : loc) (a : Account D) :
  h !! l = Some a ->
  addAccount None h c
  = (Throw (invalid_argument "Account pointer cannot be null."), []) /\
  exists c',
    addAccount (Some l) h c
    = (Return c', [account_added (getAccountNumber a) (getName c)]) /\
    Customer_getAccount (getAccountNumber a) c' = Some l /\
    (forall n, n <> getAccountNumber a ->
       Customer_getAccount n c' = Customer_getAccount n c) /\
    _customerId c' = _customerId c /\ getName c' = getName c /\
    _address c' = _address c.
Proof.
  intros Ea. split; [done|]. unfold addAccount. rewrite Ea.
  eexists. split; [done|]. unfold Customer_getAccount. simpl.
  split_and!; try done.
  - by rewrite lookup_insert_eq.
  - intros n Hn. by rewrite lookup_insert_ne.
Qed.

(** * The further properties on the program of [main] *)

Lemma history_records_running_balance_witness :
  exists t : Transaction float,
    _transactions (run_ops alice_ops alice_savings) !! 1%nat = Some t /\
    newBalance t = 1150%float /\
    newBalance t
    = replay (take 2 (_transactions (run_ops alice_ops alice_savings)))
        1000%float.
Proof.
  eexists. split; [vm_compute; reflexivity|]. split; [reflexivity|].
  apply (history_records_running_balance alice_savings 1000%float alice_ops
           1%nat _ alice_savings_created).
  vm_compute. reflexivity.
Defined.

Lemma recorded_transactions_passed_the_tests_witness :
  d_le 200%float d_zero = false.
Proof.
  destruct (recorded_transactions_passed_the_tests alice_savings 1000%float
              alice_ops
              {| type := "Deposit"; amount := 200%float;
                 newBalance := 1200%float |} alice_savings_created)
    as [[_ E]|[E _]]; [vm_compute; by left|exact E|discriminate E].
Defined.

Lemma transferFunds_all_or_nothing_witness :
  (transferFunds "ACC100001" "ACC100002" 150%float after_main).1.2
  = after_main.
Proof.
  apply (transferFunds_all_or_nothing "ACC100001" "ACC100002" 150%float
           after_main).
  vm_compute. reflexivity.
Defined.

Lemma money_calls_keep_registry_witness :
  bank (step (call_transferFunds "ACC100002" "ACC100000" 150%float) after_main)
  = bank after_main.
Proof.
  destruct (money_calls_keep_registry
              (call_transferFunds "ACC100002" "ACC100000" 150%float)
              after_main I) as [E _].
  exact E.
Defined.

Lemma createAccount_opens_account_witness :
  let r := createAccount "C1001" "savings" 10%float 0.01%float 0%float
             (run operated (new_Bank Global_Bank)) in
  r.1.1 = Return (Some 4%nat) /\
  getAccount "ACC100004" r.1.2 = Some 4%nat.
Proof.
  intros r.
  destruct (getCustomer "C1001" (run operated (new_Bank Global_Bank)))
    as [bob|] eqn:Ebob; [|vm_compute in Ebob; discriminate].
  destruct (createAccount_opens_account Global_Bank operated "C1001" bob
              "savings" 10%float 0.01%float 0%float Ebob)
    as (E1 & _ & E2 & _); [reflexivity|left; split; reflexivity|].
  subst r. vm_compute in E1, E2. vm_compute. split; [exact E1|exact E2].
Defined.

Lemma createAccount_registers_only_on_success_witness :
  heap (createAccount "C9" "savings" 10%float 0.01%float 0%float
          after_main).1.2
  = heap after_main.
Proof.
  destruct (createAccount_registers_only_on_success "C9" "savings"
              10%float 0.01%float 0%float after_main) as [E _];
    [intros l; vm_compute; discriminate|exact E].
Defined.

Lemma createAccount_rejects_negative_witness :
  let r := createAccount "C1000" "checking" (-1)%float 0%float 200%float
             after_main in
  b_accounts (bank r.1.2) = b_accounts (bank after_main) /\
  _nextAccountNumber (bank r.1.2) = 100005.
Proof.
  intros r.
  destruct (getCustomer "C1000" after_main) as [alice|] eqn:Ealice;
    [|vm_compute in Ealice; discriminate].
  destruct (createAccount_rejects_negative "C1000" alice "checking"
              (-1)%float 0%float 200%float after_main Ealice)
    as (_ & _ & _ & E1 & _ & E2); [left; split; [by right|reflexivity]|].
  split; [exact E1|exact E2].
Defined.

Lemma addCustomer_registers_customer_witness :
  let r := addCustomer "Carol White" "789 Pine Rd, Elsewhere" after_main in
  r.1.1 = Return "C1002" /\
  getCustomer "C1002" after_main = None /\
  getCustomer "C1002" r.1.2
  = Some {| _customerId := "C1002"; c_name := "Carol White";
            _address := "789 Pine Rd, Elsewhere"; c_accounts := ∅ |}.
Proof.
  destruct (addCustomer_registers_customer Global_Bank operated
              "Carol White" "789 Pine Rd, Elsewhere")
    as (E1 & _ & E2 & E3 & _); [discriminate|discriminate|].
  split_and!; [exact E1|exact E2|exact E3].
Defined.

Lemma addCustomer_rejects_empty_witness :
  let r := addCustomer "" "789 Pine Rd, Elsewhere" after_main in
  _customers (bank r.1.2) = _customers (bank after_main) /\
  _nextCustomerId (bank r.1.2) = 1003.
Proof.
  destruct (addCustomer_rejects_empty "" "789 Pine Rd, Elsewhere" after_main)
    as (_ & _ & E1 & _ & _ & E2); [by left|].
  split; [exact E1|exact E2].
Defined.

Lemma account_numbers_are_unique_witness :
  exists a1 a2 : Account float,
    heap after_main !! 0%nat = Some a1 /\ heap after_main !! 1%nat = Some a2 /\
    getAccount (getAccountNumber a1) after_main = Some 0%nat.
Proof.
  eexists _, _. split; [vm_compute; reflexivity|].
  split; [vm_compute; reflexivity|].
  eapply (account_numbers_are_unique Global_Bank operated 0%nat 1%nat);
    vm_compute; reflexivity.
Defined.

Lemma customers_are_filed_under_their_id_witness :
  exists alice : Customer,
    getCustomer "C1000" (run operated (new_Bank Global_Bank)) = Some alice /\
    _customerId alice = "C1000".
Proof.
  destruct (getCustomer "C1000" (run operated (new_Bank Global_Bank)))
    as [alice|] eqn:Ealice; [|vm_compute in Ealice; discriminate].
  exists alice. split; [reflexivity|].
  destruct (customers_are_filed_under_their_id Global_Bank operated
              "C1000" alice Ealice) as (E & _).
  exact E.
Defined.

Lemma nan_amount_is_accepted_witness :
  (deposit nan alice_savings).1.1 = true /\
  (withdraw nan alice_savings).1.1 = true.
Proof.
  destruct (nan_amount_is_accepted nan alice_savings eq_refl)
    as (E1 & _ & E2 & _).
  split; [exact E1|exact E2].
Defined.

Lemma nan_balance_is_absorbing_witness :
  is_nan (getBalance (run_ops alice_ops (deposit nan alice_savings).1.2))
  = true.
Proof.
  destruct (nan_balance_is_absorbing (deposit nan alice_savings).1.2
              alice_ops) as [E _]; [vm_compute; reflexivity|exact E].
Defined.

Lemma constructors_accept_nan_witness :
  new_SavingsAccount "ACC100000" "Alice Smith" nan nan
  = Return {| _accountNumber := "ACC100000"; _ownerName := "Alice Smith";
              _balance := nan; _transactions := [];
              dynamic := IsSavingsAccount nan |}.
Proof.
  by destruct (constructors_accept_nan "ACC100000" "Alice Smith" nan nan nan)
    as [E _].
Defined.

Lemma transfer_of_nan_succeeds_witness :
  (transferFunds "ACC100002" "ACC100000" nan after_main).1.1 = true.
Proof.
  by destruct (transfer_of_nan_succeeds Global_Bank operated
                 "ACC100002" "ACC100000" nan 2%nat 0%nat)
    as [E _]; [vm_compute; reflexivity|vm_compute; reflexivity|
               discriminate|reflexivity|].
Defined.

Lemma balance_without_overdraft_is_not_negative_witness :
  exists a : Account float,
    heap (run operated (new_Bank Global_Bank)) !! 0%nat = Some a /\
    _balance a = 1167.25%float /\
    PrimFloat.leb 0 (getBalance a) = true.
Proof.
  eexists. split; [vm_compute; reflexivity|]. split; [reflexivity|].
  match goal with |- PrimFloat.leb 0 (getBalance ?a) = true =>
    destruct (balance_without_overdraft_is_not_negative
                Global_Bank operated 0%nat a) as [E _];
      [vm_compute; reflexivity|vm_compute; reflexivity|discriminate|exact E]
  end.
Defined.

Lemma addAccount_files_pointer_witness :
  exists c' : Customer,
    addAccount (Some 0%nat) [alice_savings]
      {| _customerId := "C1000"; c_name := "Alice Smith";
         _address := "123 Main St, Anytown"; c_accounts := ∅ |}
    = (Return c', [account_added "ACC100000" "Alice Smith"]) /\
    Customer_getAccount "ACC100000" c' = Some 0%nat.
Proof.
  destruct (addAccount_files_pointer
              {| _customerId := "C1000"; c_name := "Alice Smith";
                 _address := "123 Main St, Anytown"; c_accounts := ∅ |}
              [alice_savings] 0%nat alice_savings eq_refl)
    as (_ & c' & E1 & E2 & _).
  exists c'. split; [exact E1|exact E2].
Defined.
